(** * The MCP shop-inventory tools: client facade and server dispatch table

    A shallow embedding of [src/app/servers/mcp_inventory_client.py] and
    [src/app/servers/mcp_inventory_server.py], and the properties of the
    result decoder, the tool registry adapter, the prompt resolver, the
    tool handlers and the shared client instance.

    Conventions.
    - A Python [str] is a Rocq [string] holding its UTF-8 bytes (a code
      point below 128 is one character).
    - A Python value of type [Any] is a [value].
    - A call that may raise returns a [result]; a coroutine of the client is
      a function from the state of the process to a [result] and the new
      state, run from one suspension to its end unless said otherwise. *)

From Stdlib Require Import ZArith NArith Ascii String Lia DecimalPos.
From stdpp Require Import base option list strings gmap.

Set Warnings "-register-all".

(** ** Python values *)

(** The values that travel through the tools: what [json.loads] builds,
    what the collaborators behind the server's tools return, and the
    arguments of a call.  A [float] is kept as the literal it was read
    from, a [dict] as its items in insertion order, and any other object
    by the name of its class. *)
Inductive value : Type :=
| VNone
| VBool (b : bool)
| VInt (n : Z)
| VFloat (literal : string)
| VStr (s : string)
| VList (items : list value)
| VDict (items : list (string * value))
| VObject (cls : string).

(** [d[k] = v] on the items of a dict: an existing key keeps its place. *)
Fixpoint dict_set (k : string) (v : value) (d : list (string * value))
  : list (string * value) :=
  match d with
  | [] => [(k, v)]
  | (k', v') :: d' =>
      if String.eqb k k' then (k', v) :: d' else (k', v') :: dict_set k v d'
  end.

(** [isinstance(v, str)] *)
Definition isinstance_str (v : value) : bool :=
  match v with VStr _ => true | _ => false end.

(** ** Exceptions *)

(** The exceptions the two modules can meet, by the classes their [except]
    clauses tell apart. *)
Inductive exn : Type :=
| ValueError (msg : string)       (* ValueError and json.JSONDecodeError *)
| AttributeError (obj attr : string)
| TypeError (msg : string)
| OSError (path : string)         (* FileNotFoundError and the like *)
| Failure (cls msg : string)      (* any other subclass of Exception *)
| Cancelled (cls : string).       (* BaseException outside Exception:
                                     CancelledError, KeyboardInterrupt *)

(** [isinstance(e, Exception)] *)
Definition is_Exception (e : exn) : bool :=
  match e with Cancelled _ => false | _ => true end.

(** [isinstance(e, (json.JSONDecodeError, ValueError))] *)
Definition is_ValueError (e : exn) : bool :=
  match e with ValueError _ => true | _ => false end.

Inductive result (A : Type) : Type :=
| Ok (a : A)
| Raise (e : exn).
Arguments Ok {A} a.
Arguments Raise {A} e.

#[global] Instance result_ret : MRet result := fun _ a => Ok a.
#[global] Instance result_bind : MBind result := fun _ _ f m =>
  match m with Ok a => f a | Raise e => Raise e end.

(** ** The JSON decoder of the standard library

    [json.loads] as CPython's scanner reads a text: one pass over the
    characters, a stack of the containers that are open and the element
    that is being read.  Deviations from RFC 8259 are the library's: the
    constants [NaN], [Infinity] and [-Infinity], lone surrogates in
    [\u] escapes, and the limit on the digits of an [int].  Exhaustion of
    the interpreter (recursion depth, memory) is not modelled. *)
Module Json.

Local Open Scope char_scope.
Local Open Scope N_scope.

Definition code (c : ascii) : N := N_of_ascii c.

(** The double quote. *)
Definition quote : ascii := "034".

Definition is_whitespace (c : ascii) : bool :=
  (code c =? 32) || (code c =? 9) || (code c =? 10) || (code c =? 13).

Definition digit (c : ascii) : option N :=
  if (48 <=? code c) && (code c <=? 57) then Some (code c - 48) else None.

Definition hex_digit (c : ascii) : option N :=
  if (48 <=? code c) && (code c <=? 57) then Some (code c - 48)
  else if (97 <=? code c) && (code c <=? 102) then Some (code c - 87)
  else if (65 <=? code c) && (code c <=? 70) then Some (code c - 55)
  else None.

Definition is_digit (c : ascii) : bool :=
  match digit c with Some _ => true | None => false end.

(** The UTF-8 bytes of a code point (a lone surrogate included). *)
Definition utf8 (c : N) : list ascii :=
  if c <? 128 then [ascii_of_N c]
  else if c <? 2048 then
    [ascii_of_N (192 + c / 64); ascii_of_N (128 + c mod 64)]
  else if c <? 65536 then
    [ascii_of_N (224 + c / 4096); ascii_of_N (128 + (c / 64) mod 64);
     ascii_of_N (128 + c mod 64)]
  else
    [ascii_of_N (240 + c / 262144); ascii_of_N (128 + (c / 4096) mod 64);
     ascii_of_N (128 + (c / 64) mod 64); ascii_of_N (128 + c mod 64)].

Definition is_high_surrogate (c : N) : bool := (55296 <=? c) && (c <=? 56319).
Definition is_low_surrogate (c : N) : bool := (56320 <=? c) && (c <=? 57343).
Definition join_surrogates (hi lo : N) : N :=
  65536 + (hi - 55296) * 1024 + (lo - 56320).

(** [sys.int_info.default_max_str_digits] *)
Definition max_str_digits : nat := 4300.

(** The containers that are open: a list with its items so far (last
    first), a dict with its items so far, a dict whose next value belongs
    to [key]. *)
Inductive frame : Type :=
| FList (acc : list value)
| FDict (acc : list (string * value))
| FKey (acc : list (string * value)) (key : string).

Inductive numstate : Type :=
| NMinus | NZero | NInt | NDot | NFrac | NExp | NExpSign | NExpDigits.

(** What the scanner is reading.  Characters read so far are kept last
    first; [hi] is a high surrogate that waits for its low half. *)
Inductive mode : Type :=
| Before                      (* a value *)
| ListOpen                    (* a value or the closing bracket *)
| DictOpen                    (* a key or the closing brace *)
| KeyNext                     (* a key *)
| Colon                       (* the colon after a key *)
| After                       (* a comma or the end of the container *)
| Done (v : value)            (* nothing but whitespace *)
| InStr (acc : list ascii) (hi : option N)
| Esc (acc : list ascii) (hi : option N)
| Hex (acc : list ascii) (hi : option N) (k : nat) (c : N)
| Num (st : numstate) (lit : list ascii)
| Lit (rest : list ascii) (v : value).

Definition state : Type := list frame * mode.

Definition text (acc : list ascii) : string := string_of_list_ascii (rev acc).

(** A value is complete: it goes to the innermost open container. *)
Definition complete (v : value) (stk : list frame) : option state :=
  match stk with
  | [] => Some ([], Done v)
  | FList acc :: stk' => Some (FList (v :: acc) :: stk', After)
  | FKey acc k :: stk' => Some (FDict (dict_set k v acc) :: stk', After)
  | FDict _ :: _ => None
  end.

(** A string is complete: a key where a key is due, else a value. *)
Definition complete_string (acc : list ascii) (stk : list frame) : option state :=
  match stk with
  | FDict items :: stk' => Some (FKey items (text acc) :: stk', Colon)
  | _ => complete (VStr (text acc)) stk
  end.

(** The value of a number that ends here, if it may end here. *)
Definition int_of_digits (ds : list ascii) : Z :=
  fold_left (fun n c => match digit c with
                        | Some d => (10 * n + Z.of_N d)%Z
                        | None => n
                        end) ds 0%Z.

Definition int_of_literal (lit : list ascii) : Z :=
  match lit with
  | "-" :: ds => (- int_of_digits ds)%Z
  | ds => int_of_digits ds
  end.

Definition count_digits (lit : list ascii) : nat :=
  length (filter (fun c => is_digit c = true) lit).

Definition number_value (st : numstate) (lit : list ascii) : option value :=
  match st with
  | NZero | NInt =>
      if (count_digits lit <=? max_str_digits)%nat
      then Some (VInt (int_of_literal (rev lit))) else None
  | NFrac | NExpDigits => Some (VFloat (text lit))
  | NMinus | NDot | NExp | NExpSign => None
  end.

(** The first character of a value. *)
Definition value_start (stk : list frame) (c : ascii) : option state :=
  if Ascii.eqb c quote then Some (stk, InStr [] None)
  else if Ascii.eqb c "{" then Some (FDict [] :: stk, DictOpen)
  else if Ascii.eqb c "[" then Some (FList [] :: stk, ListOpen)
  else if Ascii.eqb c "n" then Some (stk, Lit ["u"; "l"; "l"] VNone)
  else if Ascii.eqb c "t" then Some (stk, Lit ["r"; "u"; "e"] (VBool true))
  else if Ascii.eqb c "f" then Some (stk, Lit ["a"; "l"; "s"; "e"] (VBool false))
  else if Ascii.eqb c "N" then Some (stk, Lit ["a"; "N"] (VFloat "NaN"))
  else if Ascii.eqb c "I" then
    Some (stk, Lit ["n"; "f"; "i"; "n"; "i"; "t"; "y"] (VFloat "Infinity"))
  else if Ascii.eqb c "-" then Some (stk, Num NMinus [c])
  else if Ascii.eqb c "0" then Some (stk, Num NZero [c])
  else if is_digit c then Some (stk, Num NInt [c])
  else None.

(** A character after a complete value. *)
Definition delimiter (st : state) (c : ascii) : option state :=
  match st with
  | ([], Done v) => if is_whitespace c then Some st else None
  | (FList acc :: stk, After) =>
      if is_whitespace c then Some st
      else if Ascii.eqb c "," then Some (FList acc :: stk, Before)
      else if Ascii.eqb c "]" then complete (VList (rev acc)) stk
      else None
  | (FDict items :: stk, After) =>
      if is_whitespace c then Some st
      else if Ascii.eqb c "," then Some (FDict items :: stk, KeyNext)
      else if Ascii.eqb c "}" then complete (VDict items) stk
      else None
  | _ => None
  end.

(** A code point read from a [\u] escape joins the string, paired with
    the high surrogate before it when it is a low surrogate. *)
Definition push_escape (acc : list ascii) (hi : option N) (c : N) : mode :=
  match hi with
  | Some h =>
      if is_low_surrogate c then InStr (rev (utf8 (join_surrogates h c)) ++ acc) None
      else if is_high_surrogate c then InStr (rev (utf8 h) ++ acc) (Some c)
      else InStr (rev (utf8 c) ++ rev (utf8 h) ++ acc) None
  | None =>
      if is_high_surrogate c then InStr acc (Some c)
      else InStr (rev (utf8 c) ++ acc) None
  end.

(** The characters so far, a waiting high surrogate written out. *)
Definition flush (acc : list ascii) (hi : option N) : list ascii :=
  match hi with Some h => rev (utf8 h) ++ acc | None => acc end.

Definition simple_escape (c : ascii) : option ascii :=
  if Ascii.eqb c quote then Some c
  else if Ascii.eqb c "\" then Some c
  else if Ascii.eqb c "/" then Some c
  else if Ascii.eqb c "b" then Some "008"
  else if Ascii.eqb c "f" then Some "012"
  else if Ascii.eqb c "n" then Some "010"
  else if Ascii.eqb c "r" then Some "013"
  else if Ascii.eqb c "t" then Some "009"
  else None.

(** The number ends before [c]: its value is complete and [c] follows it. *)
Definition number_stop (stk : list frame) (st : numstate) (lit : list ascii)
    (c : ascii) : option state :=
  v ← number_value st lit; st' ← complete v stk; delimiter st' c.

(** A character inside a number: the number goes on, or ends before it. *)
Definition number_step (stk : list frame) (st : numstate) (lit : list ascii)
    (c : ascii) : option state :=
  let go st' := Some (stk, Num st' (c :: lit)) in
  let exponent := Ascii.eqb c "e" || Ascii.eqb c "E" in
  match st with
  | NMinus =>
      if Ascii.eqb c "0" then go NZero
      else if is_digit c then go NInt
      else if Ascii.eqb c "I" then
        Some (stk, Lit ["n"; "f"; "i"; "n"; "i"; "t"; "y"] (VFloat "-Infinity"))
      else None
  | NZero =>
      if Ascii.eqb c "." then go NDot
      else if exponent then go NExp
      else number_stop stk st lit c
  | NInt =>
      if is_digit c then go NInt
      else if Ascii.eqb c "." then go NDot
      else if exponent then go NExp
      else number_stop stk st lit c
  | NDot => if is_digit c then go NFrac else None
  | NFrac =>
      if is_digit c then go NFrac
      else if exponent then go NExp
      else number_stop stk st lit c
  | NExp =>
      if Ascii.eqb c "+" || Ascii.eqb c "-" then go NExpSign
      else if is_digit c then go NExpDigits
      else None
  | NExpSign => if is_digit c then go NExpDigits else None
  | NExpDigits => if is_digit c then go NExpDigits else number_stop stk st lit c
  end.

(** One character of the text. *)
Definition step (st : state) (c : ascii) : option state :=
  let (stk, m) := st in
  match m with
  | Before => if is_whitespace c then Some st else value_start stk c
  | ListOpen =>
      if is_whitespace c then Some st
      else if Ascii.eqb c "]" then
        match stk with FList _ :: stk' => complete (VList []) stk' | _ => None end
      else value_start stk c
  | DictOpen =>
      if is_whitespace c then Some st
      else if Ascii.eqb c "}" then
        match stk with FDict _ :: stk' => complete (VDict []) stk' | _ => None end
      else if Ascii.eqb c quote then Some (stk, InStr [] None)
      else None
  | KeyNext =>
      if is_whitespace c then Some st
      else if Ascii.eqb c quote then Some (stk, InStr [] None)
      else None
  | Colon =>
      if is_whitespace c then Some st
      else if Ascii.eqb c ":" then
        Some (stk, Before)
      else None
  | After | Done _ => delimiter st c
  | InStr acc hi =>
      if Ascii.eqb c quote then complete_string (flush acc hi) stk
      else if Ascii.eqb c "\" then Some (stk, Esc acc hi)
      else if code c <? 32 then None
      else Some (stk, InStr (c :: flush acc hi) None)
  | Esc acc hi =>
      if Ascii.eqb c "u" then Some (stk, Hex acc hi 0 0)
      else e ← simple_escape c; Some (stk, InStr (e :: flush acc hi) None)
  | Hex acc hi k n =>
      d ← hex_digit c;
      let n' := 16 * n + d in
      if (k =? 3)%nat then Some (stk, push_escape acc hi n')
      else Some (stk, Hex acc hi (S k) n')
  | Num ns lit => number_step stk ns lit c
  | Lit rest v =>
      match rest with
      | [] => None
      | x :: rest' =>
          if Ascii.eqb c x
          then match rest' with [] => complete v stk | _ => Some (stk, Lit rest' v) end
          else None
      end
  end.

Fixpoint run (st : state) (cs : list ascii) : option state :=
  match cs with
  | [] => Some st
  | c :: cs' => st' ← step st c; run st' cs'
  end.

(** The end of the text. *)
Definition finish (st : state) : option value :=
  match st with
  | ([], Done v) => Some v
  | ([], Num ns lit) => number_value ns lit
  | _ => None
  end.

Definition parse (s : string) : option value :=
  st ← run ([], Before) (list_ascii_of_string s); finish st.

(** [json.loads(s)] *)
Definition loads (s : string) : result value :=
  match parse s with
  | Some v => Ok v
  | None => Raise (ValueError "JSONDecodeError")
  end.

(** *** The encoder

    [json.dumps] with its defaults: [ensure_ascii], the separators [, ]
    and [: ], keys in the order of the dict.  What the encoder writes for
    a [float] is left to [float_repr]. *)

(** The code points of a [str], from its UTF-8 bytes. *)
Fixpoint code_points (bs : list ascii) : list N :=
  match bs with
  | [] => []
  | b :: rest =>
      if code b <? 192 then code b :: code_points rest
      else if code b <? 224 then
        match rest with
        | b2 :: rest' =>
            ((code b - 192) * 64 + (code b2 - 128)) :: code_points rest'
        | [] => [code b]
        end
      else if code b <? 240 then
        match rest with
        | b2 :: b3 :: rest' =>
            ((code b - 224) * 4096 + (code b2 - 128) * 64 + (code b3 - 128))
              :: code_points rest'
        | _ => [code b]
        end
      else
        match rest with
        | b2 :: b3 :: b4 :: rest' =>
            ((code b - 240) * 262144 + (code b2 - 128) * 4096 +
             (code b3 - 128) * 64 + (code b4 - 128)) :: code_points rest'
        | _ => [code b]
        end
  end.

Definition hex_char (d : N) : ascii :=
  if d <? 10 then ascii_of_N (48 + d) else ascii_of_N (87 + d).

(** [\uXXXX] *)
Definition escape_u (c : N) : list ascii :=
  ["\"; "u"; hex_char (c / 4096); hex_char ((c / 256) mod 16);
   hex_char ((c / 16) mod 16); hex_char (c mod 16)].

(** One code point of a string, as the encoder writes it. *)
Definition escape (c : N) : list ascii :=
  if c =? 34 then ["\"; quote]
  else if c =? 92 then ["\"; "\"]
  else if c =? 10 then ["\"; "n"]
  else if c =? 13 then ["\"; "r"]
  else if c =? 9 then ["\"; "t"]
  else if c =? 12 then ["\"; "f"]
  else if c =? 8 then ["\"; "b"]
  else if (32 <=? c) && (c <=? 126) then [ascii_of_N c]
  else if c <? 65536 then escape_u c
  else escape_u (55296 + (c - 65536) / 1024) ++
       escape_u (56320 + (c - 65536) mod 1024).

Definition encode_str (s : string) : list ascii :=
  quote :: concat (map escape (code_points (list_ascii_of_string s))) ++ [quote].

(** The digits of [repr] of an [int]. *)
Fixpoint digits (d : Decimal.uint) : list ascii :=
  match d with
  | Decimal.Nil => []
  | Decimal.D0 d' => "0" :: digits d'
  | Decimal.D1 d' => "1" :: digits d'
  | Decimal.D2 d' => "2" :: digits d'
  | Decimal.D3 d' => "3" :: digits d'
  | Decimal.D4 d' => "4" :: digits d'
  | Decimal.D5 d' => "5" :: digits d'
  | Decimal.D6 d' => "6" :: digits d'
  | Decimal.D7 d' => "7" :: digits d'
  | Decimal.D8 d' => "8" :: digits d'
  | Decimal.D9 d' => "9" :: digits d'
  end.

Definition encode_int (n : Z) : result (list ascii) :=
  match Z.to_int n with
  | Decimal.Pos d =>
      if (length (digits d) <=? max_str_digits)%nat then Ok (digits d)
      else Raise (ValueError "Exceeds the limit for integer string conversion")
  | Decimal.Neg d =>
      if (length (digits d) <=? max_str_digits)%nat then Ok ("-" :: digits d)
      else Raise (ValueError "Exceeds the limit for integer string conversion")
  end.

(** [", ".join(items)] *)
Fixpoint join (items : list (list ascii)) : list ascii :=
  match items with
  | [] => []
  | [item] => item
  | item :: items' => item ++ "," :: " " :: join items'
  end.

Fixpoint encode (float_repr : string → string) (v : value) : result (list ascii) :=
  match v with
  | VNone => Ok ["n"; "u"; "l"; "l"]
  | VBool true => Ok ["t"; "r"; "u"; "e"]
  | VBool false => Ok ["f"; "a"; "l"; "s"; "e"]
  | VInt n => encode_int n
  | VFloat literal => Ok (list_ascii_of_string (float_repr literal))
  | VStr s => Ok (encode_str s)
  | VList items =>
      encoded ← (fix each (items : list value) : result (list (list ascii)) :=
                   match items with
                   | [] => Ok []
                   | item :: items' =>
                       e ← encode float_repr item; es ← each items'; Ok (e :: es)
                   end) items;
      Ok ("[" :: join encoded ++ ["]"])
  | VDict items =>
      encoded ← (fix each (items : list (string * value))
                   : result (list (list ascii)) :=
                   match items with
                   | [] => Ok []
                   | (key, item) :: items' =>
                       e ← encode float_repr item; es ← each items';
                       Ok ((encode_str key ++ ":" :: " " :: e) :: es)
                   end) items;
      Ok ("{" :: join encoded ++ ["}"])
  | VObject cls => Raise (TypeError ("Object of type " +:+ cls +:+ " is not JSON serializable"))
  end.

(** [json.dumps(v)] *)
Definition dumps (float_repr : string → string) (v : value) : result string :=
  chars ← encode float_repr v; Ok (string_of_list_ascii chars).

End Json.


(** ** The messages of the protocol

    The parts of the mcp SDK's types that the client reads. *)

Inductive ContentBlock : Type :=
| TextContent (text : string)
| ImageContent (data mimeType : string)
| AudioContent (data mimeType : string)
| ResourceLink (uri : string)
| EmbeddedResource (uri : string).

Definition class_name (block : ContentBlock) : string :=
  match block with
  | TextContent _ => "TextContent"
  | ImageContent _ _ => "ImageContent"
  | AudioContent _ _ => "AudioContent"
  | ResourceLink _ => "ResourceLink"
  | EmbeddedResource _ => "EmbeddedResource"
  end.

(** [block.text]: only a [TextContent] has the attribute. *)
Definition get_text (block : ContentBlock) : result string :=
  match block with
  | TextContent text => Ok text
  | _ => Raise (AttributeError (class_name block) "text")
  end.

Record CallToolResult : Type := {
  content : list ContentBlock;
  isError : bool
}.

Record Tool : Type := {
  name : string;
  description : option string;
  inputSchema : value
}.

Record PromptMessage : Type := {
  role : string;
  message_content : ContentBlock      (* [message.content] *)
}.

Record GetPromptResult : Type := {
  messages : list PromptMessage
}.

(** An initialised [ClientSession]: what the server at the other end
    answers to each request. *)
Record Session : Type := {
  initialize : result ();
  session_list_tools : result (list Tool);        (* [(await session.list_tools()).tools] *)
  session_call_tool : string → value → result CallToolResult;
  session_get_prompt : string → value → result GetPromptResult
}.

(** An optional [str] as a Python value. *)
Definition optional_str (o : option string) : value :=
  match o with Some s => VStr s | None => VNone end.

(** ** The process: objects, the module's global, the log, the wire *)

Inductive Level : Type := INFO | WARNING | ERROR.

(** A call of [logger.info], [logger.warning] or [logger.error]: the
    template of its message and the values it interpolates. *)
Inductive Message : Type :=
| CallingTool (tool_name : string) (arguments : value)
| ToolReturned (tool_name : string) (content : list ContentBlock)
| ListingTools
| FoundTools (n : nat)
| ErrorListingTools (e : exn)
| ErrorToolsLLM (e : exn)
| FetchingPrompt (agent_id : string)
| PromptNoMessages (agent_id : string).

(** What the process sends: the connections it opens and the requests it
    makes on them. *)
Inductive Request : Type :=
| Connect (url : string)
| Initialize
| ListTools
| CallTool (tool_name : string) (arguments : value)
| GetPrompt (prompt_name : string) (arguments : value).

Record MCPShopperToolsClient : Type := {
  server_url : string;
  available_tools : list Tool
}.

Record Process : Type := {
  objects : gmap nat MCPShopperToolsClient;   (* the instances, by identity *)
  _mcp_client : option nat;                    (* the global: [None] or an instance *)
  logged : list (Level * Message);             (* oldest first *)
  wire : list Request                          (* oldest first *)
}.

Definition M (A : Type) : Type := Process → result A * Process.

#[global] Instance M_ret : MRet M := λ _ a p, (Ok a, p).
#[global] Instance M_bind : MBind M := λ _ _ f m p,
  match m p with
  | (Ok a, p') => f a p'
  | (Raise e, p') => (Raise e, p')
  end.

#[global] Instance M_fmap : FMap M := λ _ _ f m p,
  match m p with
  | (Ok a, p') => (Ok (f a), p')
  | (Raise e, p') => (Raise e, p')
  end.

Definition lift {A} (r : result A) : M A := λ p, (r, p).
Definition raise {A} (e : exn) : M A := λ p, (Raise e, p).

(** [try: body except Exception as e: handler] *)
Definition except_Exception {A} (body : M A) (handler : exn → M A) : M A := λ p,
  match body p with
  | (Raise e, p') => if is_Exception e then handler e p' else (Raise e, p')
  | r => r
  end.

Definition log (level : Level) (msg : Message) : M () := λ p,
  (Ok (), {| objects := objects p; _mcp_client := _mcp_client p;
             logged := logged p ++ [(level, msg)]; wire := wire p |}).

Definition send (r : Request) : M () := λ p,
  (Ok (), {| objects := objects p; _mcp_client := _mcp_client p;
             logged := logged p; wire := wire p ++ [r] |}).

(** ** The client: [mcp_inventory_client.py] *)

Module Client.

Section Methods.

(** [sse_client(url)] and the [ClientSession] on it: the connection fails,
    or there is a session with the server at [url]. *)
Variable sse_client : string → result Session.

(** [json.loads] *)
Variable json_loads : string → result value.

(** [str(result_data)], the rendering of a whole response. *)
Variable str_CallToolResult : CallToolResult → string.

(** [MCPShopperToolsClient(server_url)]; [None] and the empty string are
    the falsy arguments. *)
Definition __init__ (server_url : option string) : MCPShopperToolsClient :=
  {| server_url :=
       match server_url with
       | None | Some "" => "http://localhost:8000/sse"
       | Some url => url
       end;
     available_tools := [] |}.

(** The three lines that open every exchange:
    [async with sse_client(self.server_url) as (read, write)],
    [async with ClientSession(read, write) as session],
    [await session.initialize()]. *)
Definition open_session (self : MCPShopperToolsClient) : M Session :=
  send (Connect (server_url self));;
  session ← lift (sse_client (server_url self));
  send Initialize;;
  lift (initialize session);;
  mret session.

(** [call_tool]; both branches of the extraction give a [str], so the
    test [isinstance(result, str)] holds and the last [return] is not
    reached. *)
Definition call_tool (self : MCPShopperToolsClient) (tool_name : string)
    (arguments : value) : M value :=
  session ← open_session self;
  log INFO (CallingTool tool_name arguments);;
  send (CallTool tool_name arguments);;
  result_data ← lift (session_call_tool session tool_name arguments);
  log INFO (ToolReturned tool_name (content result_data));;
  result ← match content result_data with
            | block :: _ => lift (get_text block)
            | [] => mret (str_CallToolResult result_data)
            end;
  match json_loads result with
  | Ok parsed => mret parsed
  | Raise e => if is_ValueError e then mret (VStr result) else raise e
  end.

Definition list_tools (self : MCPShopperToolsClient) : M (list Tool) :=
  except_Exception
    (session ← open_session self;
     log INFO ListingTools;;
     send ListTools;;
     tools ← lift (session_list_tools session);
     log INFO (FoundTools (length tools));;
     mret tools)
    (λ e, log ERROR (ErrorListingTools e);; raise e).

(** One entry of the list that [get_mcp_tools_llm] builds. *)
Definition function_spec (tool : Tool) : value :=
  VDict [("type", VStr "function");
         ("function", VDict [("name", VStr (name tool));
                             ("description", optional_str (description tool));
                             ("parameters", inputSchema tool)])].

Definition get_mcp_tools_llm (self : MCPShopperToolsClient) : M (list value) :=
  except_Exception
    (tools_result ← list_tools self;
     mret (map function_spec tools_result))
    (λ e, log ERROR (ErrorToolsLLM e);; mret []).

(** [get_agent_prompt]; the [return] after the [if] is not reached. *)
Definition get_agent_prompt (self : MCPShopperToolsClient) (agent_id : string)
    : M string :=
  session ← open_session self;
  log INFO (FetchingPrompt agent_id);;
  let arguments := VDict [("agent_name", VStr agent_id)] in
  send (GetPrompt "agentPrompt" arguments);;
  prompt_result ← lift (session_get_prompt session "agentPrompt" arguments);
  match messages prompt_result with
  | message :: _ => lift (get_text (message_content message))
  | [] => log WARNING (PromptNoMessages agent_id);; mret ""
  end.

(** The four named wrappers over [call_tool]. *)
Definition get_product_recommendations (self : MCPShopperToolsClient)
    (question : string) : M value :=
  call_tool self "get_product_recommendations" (VDict [("question", VStr question)]).

Definition check_inventory (self : MCPShopperToolsClient) (product_id : string)
    : M value :=
  call_tool self "check_product_inventory" (VDict [("product_id", VStr product_id)]).

Definition calculate_discount (self : MCPShopperToolsClient) (customer_id : string)
    : M value :=
  call_tool self "get_customer_discount" (VDict [("customer_id", VStr customer_id)]).

Definition create_image (self : MCPShopperToolsClient) (prompt : string)
    (size : option string) : M value :=
  call_tool self "generate_product_image"
    (VDict [("prompt", VStr prompt); ("size", VStr (default "1024x1024" size))]).

(** [call_tool_sync] and [list_tools_sync]: a client made on the spot, with
    no url, and [asyncio.run] of its coroutine to the end. *)
Definition call_tool_sync (tool_name : string) (arguments : value) : M value :=
  let client := __init__ None in
  call_tool client tool_name arguments.

Definition list_tools_sync : M (list Tool) :=
  let client := __init__ None in
  list_tools client.

(** *** The singleton *)

(** A new instance gets an identity that no instance has. *)
Definition new (obj : MCPShopperToolsClient) : M nat := λ p,
  let l := fresh (dom (objects p)) in
  (Ok l, {| objects := <[l := obj]> (objects p); _mcp_client := _mcp_client p;
            logged := logged p; wire := wire p |}).

(** [_mcp_client is None], read with the value of the global. *)
Definition read_global : M (option nat) := λ p, (Ok (_mcp_client p), p).

(** [_mcp_client = instance] *)
Definition write_global (l : nat) : M () := λ p,
  (Ok (), {| objects := objects p; _mcp_client := Some l;
             logged := logged p; wire := wire p |}).

(** [_mcp_client.attr], up to the object that has the attribute: [None]
    has none of the client's attributes. *)
Definition global_instance (attr : string) : M nat := λ p,
  match _mcp_client p with
  | Some l => (Ok l, p)
  | None => (Raise (AttributeError "NoneType" attr), p)
  end.

(** The fields of an instance.  Identities come from [new], so the error
    is for an identity that was never given out. *)
Definition load (l : nat) : M MCPShopperToolsClient := λ p,
  match objects p !! l with
  | Some obj => (Ok obj, p)
  | None => (Raise (Failure "SystemError" "no such object"), p)
  end.

(** [instance.available_tools = tools] *)
Definition set_available_tools (l : nat) (tools : list Tool) : M () := λ p,
  (Ok (), {| objects := alter (λ obj, {| server_url := server_url obj;
                                         available_tools := tools |}) l (objects p);
             _mcp_client := _mcp_client p; logged := logged p; wire := wire p |}).

(** The value of the parameter [server_url] when the argument is left out. *)
Definition get_mcp_client_default : string := "http://localhost:8000/see".

(** [get_mcp_client(server_url)], from the call to the return; the result
    is the value of the global. *)
Definition get_mcp_client (server_url : option string) : M (option nat) :=
  let server_url := default get_mcp_client_default server_url in
  g ← read_global;
  match g with
  | None =>
      l ← new (__init__ (Some server_url));
      write_global l;;
      receiver ← global_instance "list_tools";
      self ← load receiver;
      tools ← list_tools self;
      target ← global_instance "available_tools";
      set_available_tools target tools
  | Some _ => mret ()
  end;;
  read_global.

(** *** Several callers on one event loop

    A coroutine runs until it awaits the network; then another one runs.
    [get_mcp_client] awaits once, in [await _mcp_client.list_tools()]: the
    exchange of [list_tools] is placed where the coroutine goes on. *)

Inductive task : Type :=
| Called (server_url : option string)   (* [get_mcp_client(server_url)], not yet run *)
| Awaiting (receiver : nat)             (* in [await receiver.list_tools()] *)
| Returned (instance : option nat)
| Raised (e : exn).

(** From the call to the [await], or to the [return] when there is an
    instance. *)
Definition enter (server_url : option string) : M task :=
  let server_url := default get_mcp_client_default server_url in
  g ← read_global;
  match g with
  | None =>
      l ← new (__init__ (Some server_url));
      write_global l;;
      receiver ← global_instance "list_tools";
      mret (Awaiting receiver)
  | Some _ => Returned <$> read_global
  end.

(** From the [await] to the [return]. *)
Definition leave (receiver : nat) : M task :=
  self ← load receiver;
  tools ← list_tools self;
  target ← global_instance "available_tools";
  set_available_tools target tools;;
  Returned <$> read_global.

(** The task runs to its next stop. *)
Definition resume (t : task) (p : Process) : task * Process :=
  let run (m : M task) :=
    match m p with
    | (Ok t', p') => (t', p')
    | (Raise e, p') => (Raised e, p')
    end in
  match t with
  | Called server_url => run (enter server_url)
  | Awaiting receiver => run (leave receiver)
  | Returned _ | Raised _ => (t, p)
  end.

(** The event loop gives the turn to task [i]. *)
Definition turn (i : nat) (c : Process * list task) : Process * list task :=
  let (p, ts) := c in
  match ts !! i with
  | Some t => let (t', p') := resume t p in (p', <[i := t']> ts)
  | None => c
  end.

(** The turns of a schedule, first to last. *)
Definition turns (schedule : list nat) (c : Process * list task)
  : Process * list task :=
  fold_left (λ c i, turn i c) schedule c.

End Methods.

(** The process when the module has just been loaded. *)
Definition start : Process :=
  {| objects := ∅; _mcp_client := None; logged := []; wire := [] |}.

End Client.

(** ** The server: [mcp_inventory_server.py] *)

Module Server.

Section Handlers.

(** The four functions of [app.tools], which the handlers call. *)
Variable product_recommendations : string → result value.
Variable inventory_check : value → result value.
Variable calculate_discount : string → result value.
Variable create_image : string → string → result value.

(** [json.dumps] *)
Variable json_dumps : value → result string.

(** [str.lower] *)
Variable lower : string → string.

(** [PROMPTS_DIR], and reading the whole of a text file at a path. *)
Variable PROMPTS_DIR : string.
Variable read_text : string → result string.

(** [json.dumps(result) if not isinstance(result, str) else result] *)
Definition str_or_dumps (v : value) : result string :=
  match v with
  | VStr s => Ok s
  | _ => json_dumps v
  end.

Definition get_product_recommendations (question : string) : result string :=
  results ← product_recommendations question;
  str_or_dumps results.

Definition check_product_inventory (product_id : string) : result string :=
  let product_dict := VDict [("id", VStr product_id)] in
  result ← inventory_check product_dict;
  str_or_dumps result.

Definition get_customer_discount (customer_id : string) : result string :=
  result ← calculate_discount customer_id;
  str_or_dumps result.

Definition generate_product_image (prompt : string) (size : option string)
    : result string :=
  let size := default "1024x1024" size in
  result ← create_image prompt size;
  str_or_dumps result.

Definition read_prompt_file (filename : string) : result string :=
  let file_path := PROMPTS_DIR +:+ "/" +:+ filename in
  read_text file_path.

Definition prompt_files : gmap string string :=
  list_to_map [("cora", "ShopperAgentPrompt.txt");
               ("customer_loyalty", "CustomerLoyaltyAgentPrompt.txt");
               ("discount_logic", "DiscountLogicPrompt.txt");
               ("interior_designer", "InteriorDesignAgentPrompt.txt");
               ("inventory", "InventoryAgentPrompt.txt")].

Definition agentPrompt (agent_name : string) : result string :=
  let agent_name_lower := lower agent_name in
  match prompt_files !! agent_name_lower with
  | Some filename => read_prompt_file filename
  | None =>
      Ok ("Unknown agent name: " +:+ agent_name +:+
          ". Valid options are: cora, customer_loyalty, discount_logic, interior_designer, inventory")
  end.

End Handlers.

(** The tools that the decorators declare, by the name of the function,
    with the parameters of each and whether a parameter has a default. *)
Definition declared_tools : list (string * list (string * bool)) :=
  [("get_product_recommendations", [("question", false)]);
   ("check_product_inventory", [("product_id", false)]);
   ("get_customer_discount", [("customer_id", false)]);
   ("generate_product_image", [("prompt", false); ("size", true)])].

(** [str.lower] on the letters A to Z. *)
Fixpoint ascii_lower (s : string) : string :=
  match s with
  | EmptyString => EmptyString
  | String c s' =>
      String (if (65 <=? N_of_ascii c)%N && (N_of_ascii c <=? 90)%N
              then ascii_of_N (N_of_ascii c + 32) else c) (ascii_lower s')
  end.

End Server.

(** ** The agent initializers

    [agents/agent_initializer.py] and
    [agents/customerLoyaltyAgent_initializer.py]: the function
    [initialize_agent] of each, over the calls it makes on the client of
    the agent service and the lines it prints. *)

Module Agents.

Record Agent : Type := { id : string }.

(** The calls on [project_client]: entering and leaving it as a context,
    and the methods of [project_client.agents]. *)
Inductive Call : Type :=
| Enter
| Exit
| GetAgent (agent_id : string)
| UpdateAgent (agent_id model name instructions : string) (toolset : value)
| CreateAgent (model name instructions : string) (toolset : value).

(** What the agent service answers. *)
Record AIProjectClient : Type := {
  get_agent : string → result Agent;
  update_agent : string → string → string → string → value → result Agent;
  create_agent : string → string → string → value → result Agent
}.

Record Shell : Type := {
  calls : list Call;        (* oldest first *)
  stdout : list string      (* the lines printed, oldest first *)
}.

Definition S (A : Type) : Type := Shell → result A * Shell.

#[global] Instance S_ret : MRet S := λ _ a sh, (Ok a, sh).
#[global] Instance S_bind : MBind S := λ _ _ f m sh,
  match m sh with
  | (Ok a, sh') => f a sh'
  | (Raise e, sh') => (Raise e, sh')
  end.

(** A call on the client, with the answer of the service. *)
Definition call {A} (c : Call) (answer : result A) : S A := λ sh,
  (answer, {| calls := calls sh ++ [c]; stdout := stdout sh |}).

Definition print (line : string) : S () := λ sh,
  (Ok (), {| calls := calls sh; stdout := stdout sh ++ [line] |}).

(** [with project_client: body]: the context is left when the body
    returns and when it raises, and the exception goes on. *)
Definition with_client {A} (body : S A) : S A := λ sh,
  match call Enter (Ok ()) sh with
  | (_, entered) =>
      match body entered with
      | (r, sh') => (r, {| calls := calls sh' ++ [Exit]; stdout := stdout sh' |})
      end
  end.

(** [os.environ[key]] *)
Definition environ_get (environ : gmap string string) (key : string) : S string :=
  λ sh, (match environ !! key with
         | Some v => Ok v
         | None => Raise (Failure "KeyError" key)
         end, sh).

Module agent_initializer.

Definition initialize_agent (project_client : AIProjectClient)
    (model env_var_name name instructions : string) (toolset : value) : S () :=
  with_client
    (agent ← call (CreateAgent model name instructions toolset)
               (create_agent project_client model name instructions toolset);
     print ("Created " +:+ name +:+ " agent, ID: " +:+ id agent)).

End agent_initializer.

Module customerLoyaltyAgent_initializer.

(** [agent_exists] is true exactly when [agent] has been bound by
    [get_agent]: the two variables are one option. *)
Definition initialize_agent (environ : gmap string string)
    (project_client : AIProjectClient)
    (model env_var_name name instructions : string) (toolset : value) : S () :=
  agent_id ← environ_get environ env_var_name;
  with_client
    (existing ← match agent_id with
                | "" => mret None
                | _ =>
                    agent ← call (GetAgent agent_id)
                               (get_agent project_client agent_id);
                    print ("Retrieved existing agent, ID: " +:+ id agent);;
                    mret (Some agent)
                end;
     match existing with
     | Some agent =>
         agent ← call (UpdateAgent (id agent) model name instructions toolset)
                    (update_agent project_client (id agent) model name
                       instructions toolset);
         print ("Updated " +:+ env_var_name +:+ " agent, ID: " +:+ id agent)
     | None =>
         agent ← call (CreateAgent model name instructions toolset)
                    (create_agent project_client model name instructions toolset);
         print ("Created " +:+ env_var_name +:+ " agent, ID: " +:+ id agent)
     end).

End customerLoyaltyAgent_initializer.

(** The shell before anything has run. *)
Definition fresh_shell : Shell := {| calls := []; stdout := [] |}.

(** The call changes an agent of the service. *)
Definition is_write (c : Call) : bool :=
  match c with UpdateAgent _ _ _ _ _ | CreateAgent _ _ _ _ => true | _ => false end.

Definition is_create (c : Call) : bool :=
  match c with CreateAgent _ _ _ _ => true | _ => false end.

End Agents.

(** ** Vocabulary of the statements *)

(** What [call_tool] does with the string it has extracted. *)
Definition decoded (json_loads : string → result value) (s : string) : result value :=
  match json_loads s with
  | Ok parsed => Ok parsed
  | Raise e => if is_ValueError e then Ok (VStr s) else Raise e
  end.

(** A response arrives: the connection and the handshake succeed. *)
Definition answers (sse_client : string → result Session)
    (self : MCPShopperToolsClient) (session : Session) : Prop :=
  sse_client (server_url self) = Ok session ∧ initialize session = Ok ().

(** The listing fails with [e]: at the connection, at the handshake or at
    the request. *)
Definition listing_fails (sse_client : string → result Session)
    (self : MCPShopperToolsClient) (e : exn) : Prop :=
  sse_client (server_url self) = Raise e ∨
  ∃ session, sse_client (server_url self) = Ok session ∧
    (initialize session = Raise e ∨
     (initialize session = Ok () ∧ session_list_tools session = Raise e)).

(** The process after more calls of the logger and more requests. *)
Definition with_log (p : Process) (entries : list (Level * Message))
    (requests : list Request) : Process :=
  {| objects := objects p; _mcp_client := _mcp_client p;
     logged := logged p ++ entries; wire := wire p ++ requests |}.

(** The fetches of a process: the connections it has opened. *)
Definition is_connect (r : Request) : bool :=
  match r with Connect _ => true | _ => false end.

Definition fetches (p : Process) : nat :=
  sum_list_with (λ r, if is_connect r then 1 else 0) (wire p).

(** The callers that are suspended in the listing. *)
Definition is_awaiting (t : Client.task) : bool :=
  match t with Client.Awaiting _ => true | _ => false end.

Definition awaiting (ts : list Client.task) : nat :=
  sum_list_with (λ t, if is_awaiting t then 1 else 0) ts.

Definition finished (t : Client.task) : bool :=
  match t with Client.Returned _ | Client.Raised _ => true | _ => false end.

(** The server at every url answers the listing with [tools]. *)
Definition lists_tools (sse_client : string → result Session) (tools : list Tool)
    : Prop :=
  ∃ session, (∀ url, sse_client url = Ok session) ∧
             initialize session = Ok () ∧
             session_list_tools session = Ok tools.

(** What holds of the callers of [get_mcp_client] at every moment:
    without an instance nobody has run; with the instance [l], one caller
    fetches or has fetched, the callers that have run hold [l], and the
    cache of [l] is empty until the fetch is over.  When the server is
    known to list [tools], nobody has failed and the cache has [tools]
    once the fetch is over. *)
Definition consistent (listed : option (list Tool))
    (c : Process * list Client.task) : Prop :=
  match _mcp_client c.1 with
  | None =>
      fetches c.1 = 0 ∧ Forall (λ t, ∃ url, t = Client.Called url) c.2
  | Some l =>
      awaiting c.2 + fetches c.1 = 1 ∧
      Forall (λ t, match t with
                   | Client.Called _ => True
                   | Client.Awaiting receiver => receiver = l
                   | Client.Returned instance => instance = Some l
                   | Client.Raised _ => listed = None
                   end) c.2 ∧
      ∃ obj, objects c.1 !! l = Some obj ∧
             match fetches c.1, listed with
             | 0, _ => available_tools obj = []
             | S _, Some tools => available_tools obj = tools
             | S _, None => True
             end
  end.

(** Serialised callers: whoever has returned holds an instance whose cache
    has the listed tools. *)
Definition returns_populated (tools : list Tool) (c : Process * list Client.task)
    : Prop :=
  ∀ i l, c.2 !! i = Some (Client.Returned (Some l)) →
    available_tools <$> objects c.1 !! l = Some tools.

(** [s.endswith(suffix)] *)
Definition ends_with (suffix s : string) : Prop :=
  ∃ before, s = before +:+ suffix.


(** [p'] is [p] after one exchange and nothing else: one connection, to
    the url of [self], requests on it, calls of the logger; the instances
    and the global are as they were. *)
Definition one_exchange (self : MCPShopperToolsClient) (p p' : Process) : Prop :=
  objects p' = objects p ∧
  _mcp_client p' = _mcp_client p ∧
  fetches p' = fetches p + 1 ∧
  (∃ requests, wire p' = wire p ++ Connect (server_url self) :: requests) ∧
  ∃ entries, logged p' = logged p ++ entries.


(** The arguments of a call fit the parameters of a tool: every argument
    is a [str] for one of the parameters, and every parameter without a
    default has its argument. *)
Definition binds (params : list (string * bool)) (arguments : value) : bool :=
  match arguments with
  | VDict items =>
      forallb (λ item, isinstance_str item.2 &&
                       existsb (λ param, String.eqb item.1 param.1) params) items &&
      forallb (λ param, param.2 ||
                        existsb (λ item, String.eqb param.1 item.1) items) params
  | _ => false
  end.

(** The request is a call that the server declares. *)
Definition declared_call (r : Request) : bool :=
  match r with
  | CallTool tool_name arguments =>
      existsb (λ tool, String.eqb tool.1 tool_name && binds tool.2 arguments)
              Server.declared_tools
  | _ => false
  end.

(** The transport between the two modules: when the handler of a call
    returns a text, the response to the call has that text as its only
    content block. *)
Definition delivers (session : Session) (tool_name : string) (arguments : value)
    (returned : result string) : Prop :=
  ∀ text, returned = Ok text →
    session_call_tool session tool_name arguments =
      Ok {| content := [TextContent text]; isError := false |}.





(** *** For the round trip through [json.dumps] and [json.loads] *)







(** [needle in s] *)
Definition contains (needle s : string) : Prop :=
  ∃ before after, s = before +:+ needle +:+ after.

(** ** Servers and collaborators to run the code against *)

Module Scenario.

Definition text_schema (field : string) : value :=
  VDict [("type", VStr "object");
         ("properties", VDict [(field, VDict [("type", VStr "string")])]);
         ("required", VList [VStr field])].

(** The tools that [mcp_inventory_server.py] declares. *)
Definition tools : list Tool :=
  [ {| name := "get_product_recommendations";
       description := Some "Search for product recommendations based on user query.";
       inputSchema := text_schema "question" |};
    {| name := "check_product_inventory";
       description := Some "Check inventory availability for a specific product.";
       inputSchema := text_schema "product_id" |};
    {| name := "get_customer_discount";
       description := None;
       inputSchema := text_schema "customer_id" |};
    {| name := "generate_product_image";
       description := Some "Generate an AI image based on a text description using DALL-E.";
       inputSchema := text_schema "prompt" |} ].

(** A server that answers every call with [reply] and every prompt with
    [prompt]. *)
Definition server (reply : list ContentBlock) (prompt : list PromptMessage) : Session :=
  {| initialize := Ok ();
     session_list_tools := Ok tools;
     session_call_tool := λ _ _, Ok {| content := reply; isError := false |};
     session_get_prompt := λ _ _, Ok {| messages := prompt |} |}.

(** A server whose tool listing fails with [e]. *)
Definition broken (e : exn) : Session :=
  {| initialize := Ok ();
     session_list_tools := Raise e;
     session_call_tool := λ _ _, Raise e;
     session_get_prompt := λ _ _, Raise e |}.

(** Every url leads to the session [s]. *)
Definition reach (s : Session) : string → result Session := λ _, Ok s.

Definition str_of (r : CallToolResult) : string :=
  "meta=None content=[] structuredContent=None isError=False".

Definition client : MCPShopperToolsClient := Client.__init__ None.

(** The prompts directory holds the five templates. *)
Definition read_text (path : string) : result string :=
  if String.eqb path "prompts/ShopperAgentPrompt.txt" then Ok "You are Cora."
  else if String.eqb path "prompts/CustomerLoyaltyAgentPrompt.txt" then Ok "Loyalty."
  else if String.eqb path "prompts/DiscountLogicPrompt.txt" then Ok "Discounts."
  else if String.eqb path "prompts/InteriorDesignAgentPrompt.txt" then Ok "Design."
  else if String.eqb path "prompts/InventoryAgentPrompt.txt" then Ok "Inventory."
  else Raise (OSError path).

(** Collaborators: one that returns a dict, one that returns a [str]. *)
Definition stock : value := VList [VInt 3; VBool true].
Definition returns_dict {A} : A → result value := λ _, Ok stock.
Definition returns_str {A} : A → result value := λ _, Ok (VStr "in stock").
Definition dumps (v : value) : result string :=
  Ok "[3, true]".

(** An agent service with the one agent [asst_1]. *)
Definition service : Agents.AIProjectClient :=
  {| Agents.get_agent := λ agent_id,
       if String.eqb agent_id "asst_1" then Ok {| Agents.id := "asst_1" |}
       else Raise (Failure "ResourceNotFoundError" agent_id);
     Agents.update_agent := λ agent_id _ _ _ _, Ok {| Agents.id := agent_id |};
     Agents.create_agent := λ _ _ _ _, Ok {| Agents.id := "asst_2" |} |}.

End Scenario.

(** * Properties *)

(** ** The result decoder *)

Lemma call_tool_response sse_client json_loads str_of self tool_name arguments p
    session result_data :
  answers sse_client self session →
  session_call_tool session tool_name arguments = Ok result_data →
  (Client.call_tool sse_client json_loads str_of self tool_name arguments p).1 =
    match content result_data with
    | block :: _ => get_text block ≫= decoded json_loads
    | [] => decoded json_loads (str_of result_data)
    end.
Proof.
  intros [Hc Hi] Hr.
  unfold Client.call_tool, Client.open_session, decoded.
  unfold mbind, mret, M_bind, M_ret, send, log, lift, raise; simpl.
  rewrite Hc; simpl. rewrite Hi; simpl. rewrite Hr; simpl.
  destruct (content result_data) as [|block rest]; simpl.
  - destruct (json_loads (str_of result_data)) as [v|e]; simpl; [done|].
    destruct (is_ValueError e); done.
  - destruct (get_text block) as [s|e]; simpl; [|done].
    destruct (json_loads s) as [v|e]; simpl; [done|].
    destruct (is_ValueError e); done.
Qed.

(** The library's decoder on a few texts. *)
Example loads_list : Json.loads " [1, -2 ,3e5, null] " =
  Ok (VList [VInt 1; VInt (-2); VFloat "3e5"; VNone]).
Proof. reflexivity. Qed.

Example loads_constants : Json.loads "[NaN, -Infinity, true]" =
  Ok (VList [VFloat "NaN"; VFloat "-Infinity"; VBool true]).
Proof. reflexivity. Qed.

Example loads_leading_zero : Json.loads "01" = Raise (ValueError "JSONDecodeError").
Proof. reflexivity. Qed.

Example loads_trailing_comma : Json.loads "[1,]" = Raise (ValueError "JSONDecodeError").
Proof. reflexivity. Qed.

Lemma loads_42 : Json.loads "42" = Ok (VInt 42).
Proof. reflexivity. Qed.

Lemma loads_hello_world : ∃ e, Json.loads "hello world" = Raise e ∧ is_ValueError e = true.
Proof. eexists; split; reflexivity. Qed.

Lemma loads_empty : ∃ e, Json.loads "" = Raise e ∧ is_ValueError e = true.
Proof. eexists; split; reflexivity. Qed.

(** C1. Once a response has arrived, [call_tool] takes the text of the
    first content block when the content is not empty, and the string
    rendering of the whole response when it is; it returns what
    [json.loads] makes of that string when it parses, and the string
    itself when [json.loads] fails with a [ValueError]
    ([JSONDecodeError] included).  With the library's decoder, the text
    [42] gives the integer 42 and the text [hello world] gives itself. *)
Theorem call_tool_decodes :
  ∀ sse_client json_loads str_of self tool_name arguments p session result_data,
    answers sse_client self session →
    session_call_tool session tool_name arguments = Ok result_data →
    let returns loads :=
      (Client.call_tool sse_client loads str_of self tool_name arguments p).1 in
    let chosen s :=
      (∃ rest, content result_data = TextContent s :: rest) ∨
      (content result_data = [] ∧ s = str_of result_data) in
    (∀ s parsed, chosen s → json_loads s = Ok parsed →
       returns json_loads = Ok parsed) ∧
    (∀ s e, chosen s → json_loads s = Raise e → is_ValueError e = true →
       returns json_loads = Ok (VStr s)) ∧
    (chosen "42" → returns Json.loads = Ok (VInt 42)) ∧
    (chosen "hello world" → returns Json.loads = Ok (VStr "hello world")).
Proof.
  intros sse_client json_loads str_of self tool_name arguments p session
    result_data Hs Hr returns chosen.
  assert (Hgen : ∀ loads s, chosen s → returns loads = decoded loads s).
  { intros loads s Hch. unfold returns.
    rewrite (call_tool_response _ _ _ _ _ _ _ _ _ Hs Hr).
    destruct Hch as [[rest ->] | [-> ->]]; reflexivity. }
  repeat split.
  - intros s parsed Hch Hl. rewrite (Hgen _ _ Hch). unfold decoded. by rewrite Hl.
  - intros s e Hch Hl He. rewrite (Hgen _ _ Hch). unfold decoded. by rewrite Hl, He.
  - intros Hch. by rewrite (Hgen _ _ Hch).
  - intros Hch. by rewrite (Hgen _ _ Hch).
Qed.

Lemma call_tool_decodes_witness :
  (Client.call_tool (Scenario.reach (Scenario.server [TextContent "42"] []))
     Json.loads Scenario.str_of Scenario.client "get_customer_discount"
     (VDict [("customer_id", VStr "C7")]) Client.start).1 = Ok (VInt 42).
Proof.
  apply (call_tool_decodes
           (Scenario.reach (Scenario.server [TextContent "42"] []))
           Json.loads Scenario.str_of Scenario.client "get_customer_discount"
           (VDict [("customer_id", VStr "C7")]) Client.start
           (Scenario.server [TextContent "42"] [])
           {| content := [TextContent "42"]; isError := false |}).
  - split; reflexivity.
  - reflexivity.
  - left. exists []. reflexivity.
Defined.


(** C10. When the text of the first content block is the empty string,
    [call_tool] returns the empty string: [json.loads] fails on it with a
    [JSONDecodeError], the text itself is the fallback, and the rendering
    of the whole response plays no part, the content being non-empty. *)
Theorem call_tool_empty_text :
  ∀ sse_client str_of self tool_name arguments p session result_data rest,
    answers sse_client self session →
    session_call_tool session tool_name arguments = Ok result_data →
    content result_data = TextContent "" :: rest →
    (∃ e, Json.loads "" = Raise e ∧ is_ValueError e = true) ∧
    (Client.call_tool sse_client Json.loads str_of self tool_name arguments p).1
      = Ok (VStr "") ∧
    (∀ json_loads e, json_loads "" = Raise e → is_ValueError e = true →
       (Client.call_tool sse_client json_loads str_of self tool_name arguments p).1
         = Ok (VStr "")).
Proof.
  intros sse_client str_of self tool_name arguments p session result_data rest
    Hs Hr Hc.
  split; [apply loads_empty|]. split.
  - by rewrite (call_tool_response _ _ _ _ _ _ _ _ _ Hs Hr), Hc.
  - intros json_loads e Hl He.
    rewrite (call_tool_response _ _ _ _ _ _ _ _ _ Hs Hr), Hc; simpl.
    unfold decoded. by rewrite Hl, He.
Qed.

Lemma call_tool_empty_text_witness :
  (Client.call_tool
     (Scenario.reach (Scenario.server [TextContent ""; TextContent "7"] []))
     Json.loads Scenario.str_of Scenario.client "check_product_inventory"
     (VDict [("product_id", VStr "P1")]) Client.start).1 = Ok (VStr "").
Proof.
  apply (call_tool_empty_text
           (Scenario.reach (Scenario.server [TextContent ""; TextContent "7"] []))
           Scenario.str_of Scenario.client "check_product_inventory"
           (VDict [("product_id", VStr "P1")]) Client.start
           (Scenario.server [TextContent ""; TextContent "7"] [])
           {| content := [TextContent ""; TextContent "7"]; isError := false |}
           [TextContent "7"]).
  - split; reflexivity.
  - reflexivity.
  - reflexivity.
Defined.

(** ** The tool registry adapter *)

Lemma list_tools_ok sse_client self p session tools :
  answers sse_client self session →
  session_list_tools session = Ok tools →
  Client.list_tools sse_client self p =
    (Ok tools,
     with_log p [(INFO, ListingTools); (INFO, FoundTools (length tools))]
                [Connect (server_url self); Initialize; ListTools]).
Proof.
  intros [Hc Hi] Hl.
  unfold Client.list_tools, Client.open_session, except_Exception, with_log.
  unfold mbind, mret, M_bind, M_ret, send, log, lift, raise; simpl.
  rewrite Hc; simpl. rewrite Hi; simpl. rewrite Hl; simpl.
  by rewrite <- !app_assoc.
Qed.

Lemma list_tools_fails sse_client self p e :
  listing_fails sse_client self e →
  is_Exception e = true →
  ∃ requests,
    Client.list_tools sse_client self p =
      (Raise e, with_log p [(ERROR, ErrorListingTools e)] requests) ∨
    Client.list_tools sse_client self p =
      (Raise e, with_log p [(INFO, ListingTools); (ERROR, ErrorListingTools e)]
                           requests).
Proof.
  intros Hf He.
  unfold Client.list_tools, Client.open_session, except_Exception, with_log.
  unfold mbind, mret, M_bind, M_ret, send, log, lift, raise; simpl.
  destruct Hf as [Hc | [session [Hc [Hi | [Hi Hl]]]]].
  - rewrite Hc; simpl. rewrite He; simpl. eexists. left. reflexivity.
  - rewrite Hc; simpl. rewrite Hi; simpl. rewrite He; simpl.
    exists [Connect (server_url self); Initialize]. left.
    by rewrite <- !app_assoc.
  - rewrite Hc; simpl. rewrite Hi; simpl. rewrite Hl; simpl. rewrite He; simpl.
    exists [Connect (server_url self); Initialize; ListTools]. right.
    by rewrite <- !app_assoc.
Qed.

(** C2. For every list of tools that [list_tools] returns,
    [get_mcp_tools_llm] returns one entry for each tool, in the same
    order, and the entry of a tool is the dict
    [{type: function, function: {name, description, parameters}}] with
    the name, the description and the input schema of that tool. *)
Theorem get_mcp_tools_llm_specs :
  ∀ sse_client self p tools,
    (Client.list_tools sse_client self p).1 = Ok tools →
    ∃ specs,
      (Client.get_mcp_tools_llm sse_client self p).1 = Ok specs ∧
      length specs = length tools ∧
      ∀ i tool, tools !! i = Some tool →
        specs !! i =
          Some (VDict [("type", VStr "function");
                       ("function",
                        VDict [("name", VStr (name tool));
                               ("description", optional_str (description tool));
                               ("parameters", inputSchema tool)])]).
Proof.
  intros sse_client self p tools Hl.
  exists (map Client.function_spec tools). split; [|split].
  - unfold Client.get_mcp_tools_llm, except_Exception.
    unfold mbind, mret, M_bind, M_ret.
    destruct (Client.list_tools sse_client self p) as [[ts|e] p']; simpl in *.
    + congruence.
    + discriminate.
  - apply length_map.
  - intros i tool Hi. rewrite list_lookup_fmap, Hi. reflexivity.
Qed.

Lemma get_mcp_tools_llm_specs_witness :
  ∃ specs,
    (Client.get_mcp_tools_llm (Scenario.reach (Scenario.server [] []))
       Scenario.client Client.start).1 = Ok specs ∧
    length specs = 4 ∧
    specs !! 2 =
      Some (VDict [("type", VStr "function");
                   ("function",
                    VDict [("name", VStr "get_customer_discount");
                           ("description", VNone);
                           ("parameters", Scenario.text_schema "customer_id")])]).
Proof.
  destruct (get_mcp_tools_llm_specs (Scenario.reach (Scenario.server [] []))
              Scenario.client Client.start Scenario.tools eq_refl)
    as [specs [Hr [Hn Hi]]].
  exists specs. split; [exact Hr|]. split; [exact Hn|].
  exact (Hi 2 _ eq_refl).
Defined.

(** C3. When the listing fails with an exception, [list_tools] logs the
    error and raises that same exception, and [get_mcp_tools_llm] logs
    it too and returns the empty list. *)
Theorem listing_failure_policy :
  ∀ sse_client self p e,
    listing_fails sse_client self e →
    is_Exception e = true →
    let listed := Client.list_tools sse_client self p in
    let adapted := Client.get_mcp_tools_llm sse_client self p in
    listed.1 = Raise e ∧
    last (logged listed.2) = Some (ERROR, ErrorListingTools e) ∧
    adapted.1 = Ok [] ∧
    last (logged adapted.2) = Some (ERROR, ErrorToolsLLM e).
Proof.
  intros sse_client self p e Hf He listed adapted.
  destruct (list_tools_fails sse_client self p e Hf He) as [requests Hl].
  assert (Hlisted : listed.1 = Raise e ∧
                    last (logged listed.2) = Some (ERROR, ErrorListingTools e)).
  { unfold listed. destruct Hl as [-> | ->]; simpl; by rewrite last_app. }
  destruct Hlisted as [H1 H2]. split; [exact H1|]. split; [exact H2|].
  unfold adapted, Client.get_mcp_tools_llm, except_Exception.
  unfold mbind, mret, M_bind, M_ret, log.
  fold listed. destruct listed as [[ts|e'] p']; simpl in *; [discriminate|].
  injection H1 as ->. rewrite He. simpl. split; [done|]. apply last_snoc.
Qed.

Lemma listing_failure_policy_witness :
  (Client.get_mcp_tools_llm
     (Scenario.reach (Scenario.broken (Failure "McpError" "Connection closed")))
     Scenario.client Client.start).1 = Ok [].
Proof.
  apply (listing_failure_policy
           (Scenario.reach (Scenario.broken (Failure "McpError" "Connection closed")))
           Scenario.client Client.start (Failure "McpError" "Connection closed")).
  - right. eexists. split; [reflexivity|]. right. split; reflexivity.
  - reflexivity.
Defined.

(** An exception outside [Exception], such as a cancellation, passes
    through both. *)
Lemma listing_cancelled sse_client self p e :
  listing_fails sse_client self e →
  is_Exception e = false →
  (Client.list_tools sse_client self p).1 = Raise e ∧
  (Client.get_mcp_tools_llm sse_client self p).1 = Raise e.
Proof.
  intros Hf He.
  unfold Client.get_mcp_tools_llm, Client.list_tools, Client.open_session,
    except_Exception.
  unfold mbind, mret, M_bind, M_ret, send, log, lift, raise; simpl.
  destruct Hf as [Hc | [session [Hc [Hi | [Hi Hl]]]]];
    rewrite Hc; simpl; try (rewrite Hi; simpl); try (rewrite Hl; simpl);
    rewrite He; simpl; by rewrite He.
Qed.

(** ** The agent prompt, on the client *)

(** C5. Once the response to the prompt request has arrived: when it has
    no messages, [get_agent_prompt] logs a warning and returns the empty
    string; when it has messages, it returns the text of the content of
    the first one. *)
Theorem get_agent_prompt_messages :
  ∀ sse_client self agent_id p session prompt_result,
    answers sse_client self session →
    session_get_prompt session "agentPrompt" (VDict [("agent_name", VStr agent_id)])
      = Ok prompt_result →
    let got := Client.get_agent_prompt sse_client self agent_id p in
    (messages prompt_result = [] →
       got.1 = Ok "" ∧
       last (logged got.2) = Some (WARNING, PromptNoMessages agent_id)) ∧
    (∀ message rest, messages prompt_result = message :: rest →
       got.1 = get_text (message_content message) ∧
       ∀ text, message_content message = TextContent text → got.1 = Ok text).
Proof.
  intros sse_client self agent_id p session prompt_result [Hc Hi] Hp got.
  unfold got, Client.get_agent_prompt, Client.open_session.
  unfold mbind, mret, M_bind, M_ret, send, log, lift, raise; simpl.
  rewrite Hc; simpl. rewrite Hi; simpl. rewrite Hp; simpl.
  split.
  - intros ->. simpl. split; [done|]. apply last_snoc.
  - intros message rest ->. simpl.
    split; [by destruct (get_text (message_content message))|].
    intros text ->. reflexivity.
Qed.

Lemma get_agent_prompt_messages_witness :
  (Client.get_agent_prompt (Scenario.reach (Scenario.server [] []))
     Scenario.client "cora" Client.start).1 = Ok "" ∧
  (Client.get_agent_prompt
     (Scenario.reach
        (Scenario.server []
           [{| role := "user"; message_content := TextContent "You are Cora." |}]))
     Scenario.client "cora" Client.start).1 = Ok "You are Cora.".
Proof.
  split.
  - destruct (get_agent_prompt_messages (Scenario.reach (Scenario.server [] []))
                Scenario.client "cora" Client.start (Scenario.server [] [])
                {| messages := [] |} (conj eq_refl eq_refl) eq_refl) as [Hnone _].
    exact (proj1 (Hnone eq_refl)).
  - pose (message := {| role := "user";
                        message_content := TextContent "You are Cora." |}).
    destruct (get_agent_prompt_messages
                (Scenario.reach (Scenario.server [] [message]))
                Scenario.client "cora" Client.start
                (Scenario.server [] [message])
                {| messages := [message] |} (conj eq_refl eq_refl) eq_refl)
      as [_ Hsome].
    exact (proj2 (Hsome message [] eq_refl) "You are Cora." eq_refl).
Defined.

(** ** The server's prompt resolver *)

Lemma prompt_files_unknown (key : string) :
  key ∉ ["cora"; "customer_loyalty"; "discount_logic"; "interior_designer";
         "inventory"] →
  Server.prompt_files !! key = None.
Proof.
  intros Hk. unfold Server.prompt_files.
  apply not_elem_of_list_to_map_1. exact Hk.
Qed.

(** C4. When the lower-cased agent name is one of the five identifiers,
    [agentPrompt] returns the contents of the template file of that
    identifier; for every other name it returns, and does not raise, a
    string that contains [Unknown agent name]. *)
Theorem agentPrompt_resolves :
  ∀ lower PROMPTS_DIR read_text agent_name,
    let returned := Server.agentPrompt lower PROMPTS_DIR read_text agent_name in
    (∀ id filename contents,
       (id, filename) ∈ [("cora", "ShopperAgentPrompt.txt");
                         ("customer_loyalty", "CustomerLoyaltyAgentPrompt.txt");
                         ("discount_logic", "DiscountLogicPrompt.txt");
                         ("interior_designer", "InteriorDesignAgentPrompt.txt");
                         ("inventory", "InventoryAgentPrompt.txt")] →
       lower agent_name = id →
       read_text (PROMPTS_DIR +:+ "/" +:+ filename) = Ok contents →
       returned = Ok contents) ∧
    (lower agent_name ∉ ["cora"; "customer_loyalty"; "discount_logic";
                         "interior_designer"; "inventory"] →
       ∃ message, returned = Ok message ∧ contains "Unknown agent name" message).
Proof.
  intros lower PROMPTS_DIR read_text agent_name returned. split.
  - intros id filename contents Hin Hid Hread.
    unfold returned, Server.agentPrompt, Server.read_prompt_file. rewrite Hid.
    repeat (apply elem_of_cons in Hin as [[= -> ->] | Hin]; [exact Hread|]).
    by apply elem_of_nil in Hin.
  - intros Hout. unfold returned, Server.agentPrompt.
    rewrite (prompt_files_unknown _ Hout).
    eexists. split; [reflexivity|].
    exists "", (": " +:+ agent_name +:+
      ". Valid options are: cora, customer_loyalty, discount_logic, interior_designer, inventory").
    reflexivity.
Qed.

Lemma agentPrompt_resolves_witness :
  Server.agentPrompt Server.ascii_lower "prompts" Scenario.read_text "Cora"
    = Ok "You are Cora." ∧
  ∃ message,
    Server.agentPrompt Server.ascii_lower "prompts" Scenario.read_text "unknown_agent"
      = Ok message ∧ contains "Unknown agent name" message.
Proof.
  destruct (agentPrompt_resolves Server.ascii_lower "prompts" Scenario.read_text
              "Cora") as [Hknown _].
  destruct (agentPrompt_resolves Server.ascii_lower "prompts" Scenario.read_text
              "unknown_agent") as [_ Hunknown].
  split.
  - apply (Hknown "cora" "ShopperAgentPrompt.txt").
    + apply elem_of_cons. left. reflexivity.
    + reflexivity.
    + reflexivity.
  - apply Hunknown. vm_compute.
    intros Hin. repeat (apply elem_of_cons in Hin as [[=] | Hin]).
    by apply elem_of_nil in Hin.
Defined.

(** ** The server's tool handlers *)

Lemma str_or_dumps_cases json_dumps (v : value) :
  (∀ s, v = VStr s → Server.str_or_dumps json_dumps v = Ok s) ∧
  (isinstance_str v = false → Server.str_or_dumps json_dumps v = json_dumps v).
Proof.
  split.
  - intros s ->. reflexivity.
  - destruct v; simpl; done.
Qed.

(** C6. Each of the four tool handlers, for every value [v] that its
    collaborator returns, returns [v] itself when [v] is a string and
    the JSON serialization of [v] otherwise. *)
Theorem handlers_serialize :
  ∀ product_recommendations inventory_check calculate_discount create_image
    json_dumps (v : value),
    let serialized (returned : result string) :=
      (∀ s, v = VStr s → returned = Ok s) ∧
      (isinstance_str v = false → returned = json_dumps v) in
    (∀ question,
       product_recommendations question = Ok v →
       serialized (Server.get_product_recommendations product_recommendations
                     json_dumps question)) ∧
    (∀ product_id,
       inventory_check (VDict [("id", VStr product_id)]) = Ok v →
       serialized (Server.check_product_inventory inventory_check json_dumps
                     product_id)) ∧
    (∀ customer_id,
       calculate_discount customer_id = Ok v →
       serialized (Server.get_customer_discount calculate_discount json_dumps
                     customer_id)) ∧
    (∀ prompt size,
       create_image prompt (default "1024x1024" size) = Ok v →
       serialized (Server.generate_product_image create_image json_dumps
                     prompt size)).
Proof.
  intros product_recommendations inventory_check calculate_discount create_image
    json_dumps v serialized.
  repeat split; intros;
    unfold Server.get_product_recommendations, Server.check_product_inventory,
      Server.get_customer_discount, Server.generate_product_image;
    match goal with H : _ = Ok v |- _ => rewrite H end; simpl;
    by apply str_or_dumps_cases.
Qed.

Lemma handlers_serialize_witness :
  Server.check_product_inventory Scenario.returns_str Scenario.dumps "P1"
    = Ok "in stock" ∧
  Server.check_product_inventory Scenario.returns_dict Scenario.dumps "P1"
    = Ok "[3, true]".
Proof.
  split.
  - destruct (handlers_serialize Scenario.returns_str Scenario.returns_str
                Scenario.returns_str (λ _, Scenario.returns_str) Scenario.dumps
                (VStr "in stock")) as (_ & Hinventory & _).
    exact (proj1 (Hinventory "P1" eq_refl) "in stock" eq_refl).
  - destruct (handlers_serialize Scenario.returns_dict Scenario.returns_dict
                Scenario.returns_dict (λ _, Scenario.returns_dict) Scenario.dumps
                Scenario.stock) as (_ & Hinventory & _).
    exact (proj2 (Hinventory "P1" eq_refl) eq_refl).
Defined.

(** A collaborator that raises: the handler raises the same. *)
Lemma handler_propagates inventory_check json_dumps product_id e :
  inventory_check (VDict [("id", VStr product_id)]) = Raise e →
  Server.check_product_inventory inventory_check json_dumps product_id = Raise e.
Proof.
  intros H. unfold Server.check_product_inventory. by rewrite H.
Qed.

(** ** The shared instance *)

Lemma get_mcp_client_again sse_client url p l :
  _mcp_client p = Some l →
  Client.get_mcp_client sse_client url p = (Ok (Some l), p).
Proof.
  intros Hg. unfold Client.get_mcp_client, Client.read_global.
  unfold mbind, mret, M_bind, M_ret. rewrite Hg. simpl. by rewrite Hg.
Qed.

Lemma get_mcp_client_first sse_client url p session tools :
  let obj := Client.__init__ (Some (default Client.get_mcp_client_default url)) in
  let l := fresh (dom (objects p)) in
  _mcp_client p = None →
  answers sse_client obj session →
  session_list_tools session = Ok tools →
  Client.get_mcp_client sse_client url p =
    (Ok (Some l),
     {| objects := <[l := {| server_url := server_url obj;
                            available_tools := tools |}]> (objects p);
        _mcp_client := Some l;
        logged := logged p ++ [(INFO, ListingTools); (INFO, FoundTools (length tools))];
        wire := wire p ++ [Connect (server_url obj); Initialize; ListTools] |}).
Proof.
  intros obj l Hg Hs Hl.
  unfold Client.get_mcp_client, Client.read_global, Client.new,
    Client.write_global, Client.global_instance, Client.load,
    Client.set_available_tools.
  unfold mbind, mret, M_bind, M_ret. rewrite Hg. simpl.
  fold obj. fold l. rewrite lookup_insert_eq.
  rewrite (list_tools_ok sse_client obj _ session tools Hs Hl). simpl.
  by rewrite alter_insert_eq.
Qed.

(** The call that fails in the listing leaves the instance in the global,
    its cache empty, and the next call returns it as it is. *)
Lemma get_mcp_client_failed_first sse_client url p e :
  let obj := Client.__init__ (Some (default Client.get_mcp_client_default url)) in
  let l := fresh (dom (objects p)) in
  let first := Client.get_mcp_client sse_client url p in
  _mcp_client p = None →
  listing_fails sse_client obj e →
  is_Exception e = true →
  first.1 = Raise e ∧
  _mcp_client first.2 = Some l ∧
  objects first.2 !! l = Some obj ∧
  ∀ sse_client' url',
    (Client.get_mcp_client sse_client' url' first.2).1 = Ok (Some l).
Proof.
  intros obj l first Hg Hf He.
  assert (H : first.1 = Raise e ∧ _mcp_client first.2 = Some l ∧
              objects first.2 !! l = Some obj).
  { unfold first, Client.get_mcp_client, Client.read_global, Client.new,
      Client.write_global, Client.global_instance, Client.load,
      Client.set_available_tools.
    unfold mbind, mret, M_bind, M_ret. rewrite Hg. simpl.
    fold obj. fold l. rewrite lookup_insert_eq.
    destruct (list_tools_fails sse_client obj
                {| objects := <[l:=obj]> (objects p); _mcp_client := Some l;
                   logged := logged p; wire := wire p |} e Hf He)
      as [requests [-> | ->]]; simpl; by rewrite lookup_insert_eq. }
  destruct H as (H1 & H2 & H3). repeat split; try done.
  intros. by rewrite (get_mcp_client_again _ _ _ l H2).
Qed.

(** [list_tools] touches neither the instances nor the global, and its
    first request is the connection to the url of the instance. *)
Lemma list_tools_frame sse_client self p :
  let listed := Client.list_tools sse_client self p in
  objects listed.2 = objects p ∧
  _mcp_client listed.2 = _mcp_client p ∧
  fetches listed.2 = fetches p + 1 ∧
  ∃ requests, wire listed.2 = wire p ++ Connect (server_url self) :: requests.
Proof.
  assert (Hcount : ∀ requests,
            sum_list_with (λ r, if is_connect r then 1 else 0) requests = 0 →
            sum_list_with (λ r, if is_connect r then 1 else 0)
              (wire p ++ Connect (server_url self) :: requests) = fetches p + 1).
  { intros requests H. rewrite sum_list_with_app. simpl. rewrite H.
    unfold fetches. lia. }
  unfold Client.list_tools, Client.open_session, except_Exception.
  unfold mbind, mret, M_bind, M_ret, send, log, lift, raise; simpl.
  destruct (sse_client (server_url self)) as [session|e]; simpl.
  - destruct (initialize session) as [[]|e]; simpl.
    + destruct (session_list_tools session) as [tools|e]; simpl.
      * unfold fetches; simpl. rewrite <- !app_assoc. simpl.
        repeat split; [by apply Hcount|]. by exists [Initialize; ListTools].
      * destruct (is_Exception e); unfold fetches; simpl;
          rewrite <- !app_assoc; simpl;
          (repeat split; [by apply Hcount|]); by exists [Initialize; ListTools].
    + destruct (is_Exception e); unfold fetches; simpl;
        rewrite <- !app_assoc; simpl;
        (repeat split; [by apply Hcount|]); by exists [Initialize].
  - destruct (is_Exception e); unfold fetches; simpl;
      (repeat split; [by apply Hcount|]); by exists [].
Qed.

(** Whatever the network does, the first call leaves in the global a new
    instance whose url is the argument, or the default of
    [get_mcp_client], and connects to that url. *)
Lemma get_mcp_client_registers sse_client url p :
  let obj := Client.__init__ (Some (default Client.get_mcp_client_default url)) in
  let l := fresh (dom (objects p)) in
  let first := Client.get_mcp_client sse_client url p in
  _mcp_client p = None →
  _mcp_client first.2 = Some l ∧
  (∃ tools, objects first.2 !! l =
              Some {| server_url := server_url obj; available_tools := tools |}) ∧
  ∃ requests, wire first.2 = wire p ++ Connect (server_url obj) :: requests.
Proof.
  intros obj l first Hg.
  unfold first, Client.get_mcp_client, Client.read_global, Client.new,
    Client.write_global, Client.global_instance, Client.load,
    Client.set_available_tools.
  unfold mbind, mret, M_bind, M_ret. rewrite Hg. simpl.
  fold obj. fold l. rewrite lookup_insert_eq.
  pose proof (list_tools_frame sse_client obj
                {| objects := <[l:=obj]> (objects p); _mcp_client := Some l;
                   logged := logged p; wire := wire p |}) as Hframe.
  simpl in Hframe.
  destruct (Client.list_tools sse_client obj _) as [[tools|e] p'];
    simpl in *; destruct Hframe as (Ho & Hc & _ & requests & Hw).
  - rewrite Hc. simpl. rewrite Hc. simpl. split; [done|]. split.
    + exists tools. by rewrite Ho, alter_insert_eq, lookup_insert_eq.
    + by exists requests.
  - split; [done|]. split.
    + exists []. by rewrite Ho, lookup_insert_eq.
    + by exists requests.
Qed.

(** C7. The first call of [get_mcp_client], when its listing succeeds,
    constructs the instance, leaves it in the global, fills its
    [available_tools] with the tools of one listing, and returns it;
    every later call, whatever its url, returns that same instance and
    changes nothing. *)
Theorem get_mcp_client_singleton :
  ∀ sse_client url p session tools,
    let obj := Client.__init__ (Some (default Client.get_mcp_client_default url)) in
    _mcp_client p = None →
    answers sse_client obj session →
    session_list_tools session = Ok tools →
    let first := Client.get_mcp_client sse_client url p in
    ∃ l,
      first.1 = Ok (Some l) ∧
      objects p !! l = None ∧
      _mcp_client first.2 = Some l ∧
      objects first.2 !! l =
        Some {| server_url := server_url obj; available_tools := tools |} ∧
      wire first.2 = wire p ++ [Connect (server_url obj); Initialize; ListTools] ∧
      ∀ sse_client' url' p',
        _mcp_client p' = Some l →
        Client.get_mcp_client sse_client' url' p' = (Ok (Some l), p').
Proof.
  intros sse_client url p session tools obj Hg Hs Hl first.
  exists (fresh (dom (objects p))).
  unfold first. rewrite (get_mcp_client_first _ _ _ _ _ Hg Hs Hl). simpl.
  repeat split.
  - apply not_elem_of_dom, is_fresh.
  - apply lookup_insert_eq.
  - intros. by apply get_mcp_client_again.
Qed.

Lemma get_mcp_client_singleton_witness :
  ∃ l,
    let first :=
      Client.get_mcp_client (Scenario.reach (Scenario.server [] []))
        (Some "http://shop:8000/sse") Client.start in
    first.1 = Ok (Some l) ∧
    (available_tools <$> objects first.2 !! l) = Some Scenario.tools ∧
    Client.get_mcp_client (Scenario.reach (Scenario.broken (OSError "refused")))
      (Some "http://elsewhere:9/sse") first.2 = (Ok (Some l), first.2).
Proof.
  destruct (get_mcp_client_singleton (Scenario.reach (Scenario.server [] []))
              (Some "http://shop:8000/sse") Client.start (Scenario.server [] [])
              Scenario.tools eq_refl (conj eq_refl eq_refl) eq_refl)
    as (l & Hr & _ & Hg & Ho & _ & Hnext).
  exists l. simpl. split; [exact Hr|]. split.
  - by rewrite Ho.
  - apply Hnext, Hg.
Defined.

(** ** The default endpoint *)

Lemma see_is_not_sse : ¬ ends_with "/sse" "http://localhost:8000/see".
Proof.
  intros [before H].
  do 21 (destruct before as [|? before]; [discriminate H|];
         injection H as _ H).
  destruct before as [|? [|? [|? [|? [|? before]]]]]; discriminate H.
Qed.

(** Without a url, or with an empty one, the constructor takes the
    endpoint that ends in [/sse]. *)
Lemma init_default_url (url : option string) :
  url = None ∨ url = Some "" →
  server_url (Client.__init__ url) = "http://localhost:8000/sse" ∧
  ends_with "/sse" (server_url (Client.__init__ url)).
Proof.
  intros [-> | ->]; (split; [reflexivity|]);
    by exists "http://localhost:8000".
Qed.

(** C9, at the failing input.  [get_mcp_client()], called with no url in
    a process that has no instance yet, leaves an instance whose url is
    [http://localhost:8000/see] and connects to it: the url does not end
    in [/sse]. *)
Theorem get_mcp_client_default_url :
  ∀ sse_client,
    let first := Client.get_mcp_client sse_client None Client.start in
    ∃ l obj,
      _mcp_client first.2 = Some l ∧
      objects first.2 !! l = Some obj ∧
      server_url obj = "http://localhost:8000/see" ∧
      head (wire first.2) = Some (Connect "http://localhost:8000/see") ∧
      ¬ ends_with "/sse" (server_url obj).
Proof.
  intros sse_client first.
  destruct (get_mcp_client_registers sse_client None Client.start eq_refl)
    as (Hg & [tools Ho] & [requests Hw]).
  eexists _, _. split; [exact Hg|]. split; [exact Ho|]. split; [reflexivity|].
  split.
  - unfold first. rewrite Hw. reflexivity.
  - apply see_is_not_sse.
Qed.

(** ** Several callers of [get_mcp_client] *)

Lemma sum_list_with_insert {A} (f : A → nat) (l : list A) i x y :
  l !! i = Some x →
  sum_list_with f (<[i:=y]> l) + f x = sum_list_with f l + f y.
Proof.
  revert i. induction l as [|a l IH]; intros [|i] Hi; simplify_eq/=.
  - lia.
  - specialize (IH i Hi). lia.
Qed.

Lemma resume_enter_first sse_client url p :
  _mcp_client p = None →
  Client.resume sse_client (Client.Called url) p =
    (Client.Awaiting (fresh (dom (objects p))),
     {| objects := <[fresh (dom (objects p)) :=
                      Client.__init__ (Some (default Client.get_mcp_client_default url))]>
                     (objects p);
        _mcp_client := Some (fresh (dom (objects p)));
        logged := logged p; wire := wire p |}).
Proof.
  intros Hg.
  unfold Client.resume, Client.enter, Client.read_global, Client.new,
    Client.write_global, Client.global_instance.
  unfold mbind, mret, M_bind, M_ret. by rewrite Hg.
Qed.

Lemma resume_enter_again sse_client url p l :
  _mcp_client p = Some l →
  Client.resume sse_client (Client.Called url) p = (Client.Returned (Some l), p).
Proof.
  intros Hg.
  unfold Client.resume, Client.enter, Client.read_global.
  unfold mbind, mret, fmap, M_bind, M_ret, M_fmap. rewrite Hg. simpl.
  by rewrite Hg.
Qed.

Lemma resume_leave sse_client p l obj session tools :
  _mcp_client p = Some l →
  objects p !! l = Some obj →
  answers sse_client obj session →
  session_list_tools session = Ok tools →
  Client.resume sse_client (Client.Awaiting l) p =
    (Client.Returned (Some l),
     {| objects := <[l := {| server_url := server_url obj;
                            available_tools := tools |}]> (objects p);
        _mcp_client := Some l;
        logged := logged p ++ [(INFO, ListingTools); (INFO, FoundTools (length tools))];
        wire := wire p ++ [Connect (server_url obj); Initialize; ListTools] |}).
Proof.
  intros Hg Ho Hs Hl.
  unfold Client.resume, Client.leave, Client.read_global, Client.load,
    Client.global_instance, Client.set_available_tools.
  unfold mbind, mret, fmap, M_bind, M_ret, M_fmap. rewrite Ho.
  rewrite (list_tools_ok sse_client obj p session tools Hs Hl). simpl.
  rewrite Hg. simpl. rewrite Hg. simpl.
  f_equal. f_equal. apply map_eq. intros k.
  destruct (decide (k = l)) as [->|Hk].
  - by rewrite lookup_alter_eq, Ho, lookup_insert_eq.
  - by rewrite lookup_alter_ne, lookup_insert_ne.
Qed.

(** The two halves, one after the other, are the coroutine. *)
Lemma resume_twice sse_client url p :
  let (t, p') := Client.resume sse_client (Client.Called url) p in
  let (t', p'') := Client.resume sse_client t p' in
  let (r, q) := Client.get_mcp_client sse_client url p in
  p'' = q ∧
  match r with Ok instance => t' = Client.Returned instance | Raise e => t' = Client.Raised e end.
Proof.
  unfold Client.resume, Client.enter, Client.leave, Client.get_mcp_client,
    Client.read_global, Client.new, Client.write_global, Client.global_instance,
    Client.load, Client.set_available_tools.
  unfold mbind, mret, fmap, M_bind, M_ret, M_fmap.
  destruct (_mcp_client p) as [l|] eqn:Hg; simpl.
  - rewrite Hg. done.
  - rewrite lookup_insert_eq.
    destruct (Client.list_tools sse_client _ _) as [[tools|e] q]; simpl; [|done].
    destruct (_mcp_client q); simpl; done.
Qed.

(** The caller that is suspended in the listing goes on: one fetch more,
    the same global, and the caller has returned the instance or raised;
    when the server answers, it has returned and the cache is filled. *)
Lemma resume_leave_any sse_client p l obj :
  _mcp_client p = Some l →
  objects p !! l = Some obj →
  ∃ t' p' obj',
    Client.resume sse_client (Client.Awaiting l) p = (t', p') ∧
    _mcp_client p' = Some l ∧
    fetches p' = fetches p + 1 ∧
    objects p' !! l = Some obj' ∧
    is_awaiting t' = false ∧
    (t' = Client.Returned (Some l) ∨ ∃ e, t' = Client.Raised e) ∧
    ∀ session tools,
      answers sse_client obj session →
      session_list_tools session = Ok tools →
      t' = Client.Returned (Some l) ∧ available_tools obj' = tools.
Proof.
  intros Hg Ho.
  destruct (Client.resume sse_client (Client.Awaiting l) p) as [t' p'] eqn:Hr.
  assert (Hany : _mcp_client p' = Some l ∧ fetches p' = fetches p + 1 ∧
                 (∃ obj', objects p' !! l = Some obj') ∧
                 (t' = Client.Returned (Some l) ∨ ∃ e, t' = Client.Raised e)).
  { revert Hr.
    unfold Client.resume, Client.leave, Client.read_global, Client.load,
      Client.global_instance, Client.set_available_tools.
    unfold mbind, mret, fmap, M_bind, M_ret, M_fmap. rewrite Ho.
    pose proof (list_tools_frame sse_client obj p) as Hframe. simpl in Hframe.
    destruct (Client.list_tools sse_client obj p) as [[tools|e] q];
      simpl in *; destruct Hframe as (Hobjs & Hglob & Hcount & _).
    - rewrite Hglob, Hg. simpl. rewrite Hglob, Hg. intros [= <- <-]. simpl.
      repeat split; [done| |by left].
      eexists. by rewrite lookup_alter_eq, Hobjs, Ho.
    - intros [= <- <-]. repeat split; [congruence|done| |right; by exists e].
      exists obj. by rewrite Hobjs. }
  destruct Hany as (H1 & H2 & [obj' H3] & H4).
  exists t', p', obj'. split; [done|]. split; [done|]. split; [done|].
  split; [done|]. split; [by destruct H4 as [-> | [e ->]]|]. split; [done|].
  intros session tools Hs Hl.
  rewrite (resume_leave _ _ _ _ _ _ Hg Ho Hs Hl) in Hr.
  injection Hr as <- <-. simpl in H3. rewrite lookup_insert_eq in H3.
  by injection H3 as <-.
Qed.

Section Concurrent.

Variable sse_client : string → result Session.
Variable listed : option (list Tool).
Hypothesis answered : ∀ tools, listed = Some tools → lists_tools sse_client tools.

Lemma consistent_turn i c :
  consistent listed c → consistent listed (Client.turn sse_client i c).
Proof.
  destruct c as [p ts]. unfold Client.turn.
  destruct (ts !! i) as [t|] eqn:Hi; [|done].
  unfold consistent; simpl.
  destruct (_mcp_client p) as [l|] eqn:Hg.
  - intros (Hcount & Hall & obj & Ho & Htools).
    pose proof (Forall_lookup_1 _ _ _ _ Hall Hi) as Ht.
    destruct t as [url|receiver|instance|e]; simpl in Ht.
    + rewrite (resume_enter_again _ _ _ _ Hg). simpl. rewrite Hg.
      split; [|split].
      * pose proof (sum_list_with_insert
                      (λ t, if is_awaiting t then 1 else 0) ts i _
                      (Client.Returned (Some l)) Hi) as Hs.
        unfold awaiting in *. simpl in Hs. lia.
      * by apply Forall_insert.
      * eauto.
    + subst receiver.
      destruct (resume_leave_any sse_client p l obj Hg Ho)
        as (t' & p' & obj' & -> & Hg' & Hf' & Ho' & Hnot & Hcases & Hanswer).
      simpl. rewrite Hg'.
      pose proof (sum_list_with_insert
                    (λ t, if is_awaiting t then 1 else 0) ts i _ t' Hi) as Hs.
      unfold awaiting in *. simpl in Hs. rewrite Hnot in Hs.
      assert (Hf : fetches p = 0) by lia.
      split; [lia|]. split.
      * apply Forall_insert; [done|].
        destruct listed as [tools|] eqn:Hlisted.
        -- destruct (answered tools eq_refl) as (session & Hnet & Hinit & Hlist).
           by destruct (Hanswer session tools (conj (Hnet _) Hinit) Hlist) as [-> _].
        -- by destruct Hcases as [-> | [e ->]].
      * exists obj'. split; [done|]. rewrite Hf'. replace (fetches p + 1) with (S (fetches p)) by lia.
        destruct listed as [tools|] eqn:Hlisted; [|done].
        destruct (answered tools eq_refl) as (session & Hnet & Hinit & Hlist).
        by destruct (Hanswer session tools (conj (Hnet _) Hinit) Hlist) as [_ ->].
    + subst instance. simpl. rewrite Hg, list_insert_id by done. eauto.
    + simpl. rewrite Hg, list_insert_id by done. eauto.
  - intros [Hf Hall].
    pose proof (Forall_lookup_1 _ _ _ _ Hall Hi) as [url ->].
    rewrite (resume_enter_first _ _ _ Hg). simpl.
    assert (Hnone : awaiting ts = 0).
    { clear -Hall. unfold awaiting.
      induction Hall as [|t ts [url ->] _ IH]; simpl; [done|]. exact IH. }
    split; [|split].
    + pose proof (sum_list_with_insert
                    (λ t, if is_awaiting t then 1 else 0) ts i _
                    (Client.Awaiting (fresh (dom (objects p)))) Hi) as Hs.
      unfold awaiting, fetches in *. simpl in *. lia.
    + apply Forall_insert; [|done].
      eapply Forall_impl; [exact Hall|]. by intros t [url' ->].
    + eexists. split; [apply lookup_insert_eq|].
      unfold fetches in *. simpl in *. by rewrite Hf.
Qed.

Lemma consistent_turns schedule c :
  consistent listed c → consistent listed (Client.turns sse_client schedule c).
Proof.
  revert c. unfold Client.turns.
  induction schedule as [|i schedule IH]; intros c Hc; simpl; [done|].
  apply IH, consistent_turn, Hc.
Qed.

Lemma turns_length schedule c :
  length (Client.turns sse_client schedule c).2 = length c.2.
Proof.
  revert c. unfold Client.turns.
  induction schedule as [|i schedule IH]; intros [p ts]; simpl; [done|].
  rewrite IH. unfold Client.turn.
  destruct (ts !! i) as [t|]; [|done].
  destruct (Client.resume sse_client t p). simpl. apply length_insert.
Qed.

Lemma consistent_start urls :
  consistent listed (Client.start, Client.Called <$> urls).
Proof.
  unfold consistent; simpl. split; [done|].
  apply Forall_fmap, Forall_true. intros url. by exists url.
Qed.

End Concurrent.

(** C8, as amended.  Callers of [get_mcp_client] on one event loop, in a
    process without an instance, in any order of their turns.  Whatever
    the network does, at most one fetch is made, exactly one once all
    callers are done, and every caller that has returned holds the one
    instance of the global.  When the server answers the listing, no
    caller fails, and the cache of the instance is empty while the
    fetching caller is suspended and holds the listed tools afterwards. *)
Theorem get_mcp_client_concurrent :
  ∀ sse_client urls schedule,
    let c := Client.turns sse_client schedule
               (Client.start, Client.Called <$> urls) in
    fetches c.1 ≤ 1 ∧
    (∀ i instance, c.2 !! i = Some (Client.Returned instance) →
       is_Some instance ∧ instance = _mcp_client c.1) ∧
    (urls ≠ [] → Forall (λ t, finished t = true) c.2 → fetches c.1 = 1) ∧
    (∀ tools, lists_tools sse_client tools →
       (∀ i e, c.2 !! i ≠ Some (Client.Raised e)) ∧
       (∀ l, _mcp_client c.1 = Some l →
          ∃ obj, objects c.1 !! l = Some obj ∧
                 available_tools obj =
                   if (awaiting c.2 =? 0)%nat then tools else [])).
Proof.
  intros sse_client urls schedule c.
  assert (Hc : ∀ listed,
            (∀ tools, listed = Some tools → lists_tools sse_client tools) →
            consistent listed c).
  { intros listed Hl.
    apply (consistent_turns sse_client listed Hl), consistent_start. }
  pose proof (turns_length sse_client schedule
                (Client.start, Client.Called <$> urls)) as Hlen.
  fold c in Hlen. simpl in Hlen. rewrite length_fmap in Hlen.
  pose proof (Hc None ltac:(done)) as Hany. unfold consistent in Hany.
  split; [|split; [|split]].
  - destruct (_mcp_client c.1); [|destruct Hany as [-> _]]; lia.
  - intros i instance Hi.
    destruct (_mcp_client c.1) as [l|].
    + destruct Hany as (_ & Hall & _).
      pose proof (Forall_lookup_1 _ _ _ _ Hall Hi) as Ht. simpl in Ht.
      subst instance. eauto.
    + destruct Hany as [_ Hall].
      by pose proof (Forall_lookup_1 _ _ _ _ Hall Hi) as [url [=]].
  - intros Hurls Hfin.
    destruct (_mcp_client c.1) as [l|].
    + destruct Hany as (Hcount & _).
      assert (Hnone : awaiting c.2 = 0); [|lia].
      clear -Hfin. unfold awaiting.
      induction Hfin as [|t ts Ht _ IH]; simpl; [done|].
      rewrite IH. by destruct t.
    + exfalso. destruct Hany as [_ Hall].
      destruct c.2 as [|t ts]; simpl in *.
      * by destruct urls.
      * apply Forall_cons in Hall as [[url ->] _].
        by apply Forall_cons in Hfin as [[=] _].
  - intros tools Htools.
    pose proof (Hc (Some tools) ltac:(by intros ? [= <-])) as Hknown.
    unfold consistent in Hknown.
    destruct (_mcp_client c.1) as [l|].
    + destruct Hknown as (Hcount & Hall & obj & Ho & Hcache). split.
      * intros i e Hi.
        by pose proof (Forall_lookup_1 _ _ _ _ Hall Hi) as Ht.
      * intros l' [= <-]. exists obj. split; [done|].
        destruct (fetches c.1) as [|n].
        -- by replace (awaiting c.2) with 1 by lia.
        -- by replace (awaiting c.2) with 0 by lia.
    + destruct Hknown as [_ Hall]. split; [|done].
      intros i e Hi.
      by pose proof (Forall_lookup_1 _ _ _ _ Hall Hi) as [url [=]].
Qed.

Lemma get_mcp_client_concurrent_witness :
  let c := Client.turns (Scenario.reach (Scenario.server [] [])) [0; 1; 0]
             (Client.start,
              Client.Called <$> [None; Some "http://shop:8000/sse"]) in
  fetches c.1 = 1 ∧
  ∃ obj, objects c.1 !! 0 = Some obj ∧ available_tools obj = Scenario.tools.
Proof.
  destruct (get_mcp_client_concurrent (Scenario.reach (Scenario.server [] []))
              [None; Some "http://shop:8000/sse"] [0; 1; 0])
    as (_ & _ & Hdone & Hanswered).
  split.
  - apply Hdone; [done|]. vm_compute. repeat constructor.
  - destruct (Hanswered Scenario.tools) as [_ Hcache].
    + exists (Scenario.server [] []). repeat split; reflexivity.
    + destruct (Hcache 0) as (obj & Ho & Hfilled).
      * vm_compute. reflexivity.
      * exists obj. split; [exact Ho|]. rewrite Hfilled. reflexivity.
Defined.

(** C8, as stated, fails.  Two callers, the second one running while the
    first one is suspended in the listing: the second caller has
    returned, without waiting for the first, and the instance it holds
    has an empty cache although the server lists four tools. *)
Lemma get_mcp_client_not_serialized :
  let c := Client.turns (Scenario.reach (Scenario.server [] [])) [0; 1]
             (Client.start, [Client.Called None; Client.Called None]) in
  c.2 = [Client.Awaiting 0; Client.Returned (Some 0)] ∧
  (available_tools <$> objects c.1 !! 0) = Some [] ∧
  session_list_tools (Scenario.server [] []) = Ok Scenario.tools ∧
  ¬ returns_populated Scenario.tools c.
Proof.
  split; [by vm_compute|]. split; [by vm_compute|]. split; [done|].
  intros H. specialize (H 1 0 eq_refl). vm_compute in H. discriminate H.
Qed.

(** * Further properties of the client *)

Ltac run_client :=
  unfold Client.call_tool_sync, Client.list_tools_sync,
    Client.get_product_recommendations, Client.check_inventory,
    Client.calculate_discount, Client.create_image,
    Client.get_mcp_tools_llm, Client.call_tool, Client.list_tools,
    Client.get_agent_prompt, Client.open_session, except_Exception;
  unfold mbind, mret, fmap, M_bind, M_ret, M_fmap, send, log, lift, raise;
  simpl.

Ltac split_cases :=
  repeat match goal with
         | |- context [match ?x with _ => _ end] =>
             lazymatch x with
             | context [match _ with _ => _ end] => fail
             | _ => destruct x eqn:?; simpl
             end
         end.

Lemma one_exchange_intro self p p' requests entries :
  objects p' = objects p →
  _mcp_client p' = _mcp_client p →
  wire p' = wire p ++ Connect (server_url self) :: requests →
  sum_list_with (λ r, if is_connect r then 1 else 0) requests = 0 →
  logged p' = logged p ++ entries →
  one_exchange self p p'.
Proof.
  intros Ho Hg Hw Hr Hl. unfold one_exchange, fetches.
  split; [done|]. split; [done|]. split; [|split; eauto].
  rewrite Hw, sum_list_with_app. simpl. lia.
Qed.

Ltac one_exchange_done :=
  eapply one_exchange_intro; simpl;
  [reflexivity | reflexivity
  | rewrite <- ?app_assoc; simpl; reflexivity
  | reflexivity
  | rewrite <- ?app_assoc; simpl; try reflexivity; by rewrite app_nil_r].

Lemma call_tool_one_exchange sse_client json_loads str_of self tool_name
    arguments p :
  one_exchange self p
    (Client.call_tool sse_client json_loads str_of self tool_name arguments p).2.
Proof. run_client; split_cases; one_exchange_done. Qed.

Lemma list_tools_one_exchange sse_client self p :
  one_exchange self p (Client.list_tools sse_client self p).2.
Proof. run_client; split_cases; one_exchange_done. Qed.

Lemma get_mcp_tools_llm_one_exchange sse_client self p :
  one_exchange self p (Client.get_mcp_tools_llm sse_client self p).2.
Proof. run_client; split_cases; one_exchange_done. Qed.

Lemma get_agent_prompt_one_exchange sse_client self agent_id p :
  one_exchange self p (Client.get_agent_prompt sse_client self agent_id p).2.
Proof. run_client; split_cases; one_exchange_done. Qed.

(** X1. Every call of a method of the client is one exchange: it opens
    one connection, to the url of the instance, whatever the network
    answers, and it changes neither the instances nor the global. *)
Theorem every_call_one_exchange :
  ∀ sse_client json_loads str_of self tool_name arguments agent_id p,
    one_exchange self p
      (Client.call_tool sse_client json_loads str_of self tool_name arguments p).2 ∧
    one_exchange self p (Client.list_tools sse_client self p).2 ∧
    one_exchange self p (Client.get_mcp_tools_llm sse_client self p).2 ∧
    one_exchange self p (Client.get_agent_prompt sse_client self agent_id p).2.
Proof.
  intros. split; [|split; [|split]].
  - apply call_tool_one_exchange.
  - apply list_tools_one_exchange.
  - apply get_mcp_tools_llm_one_exchange.
  - apply get_agent_prompt_one_exchange.
Qed.




(** X3. [call_tool] reads the first content block and nothing else: two
    responses with the same first block give the same result, whatever
    their other blocks and their [isError] flags are. *)
Theorem call_tool_first_block_only :
  ∀ sse_client sse_client' json_loads str_of self tool_name arguments p
    session session' r r' block rest rest',
    answers sse_client self session →
    answers sse_client' self session' →
    session_call_tool session tool_name arguments = Ok r →
    session_call_tool session' tool_name arguments = Ok r' →
    content r = block :: rest →
    content r' = block :: rest' →
    (Client.call_tool sse_client json_loads str_of self tool_name arguments p).1 =
    (Client.call_tool sse_client' json_loads str_of self tool_name arguments p).1.
Proof.
  intros sse_client sse_client' json_loads str_of self tool_name arguments p
    session session' r r' block rest rest' Hs Hs' Hr Hr' Hc Hc'.
  rewrite (call_tool_response _ _ _ _ _ _ _ _ _ Hs Hr), Hc.
  by rewrite (call_tool_response _ _ _ _ _ _ _ _ _ Hs' Hr'), Hc'.
Qed.

Lemma call_tool_first_block_only_witness :
  (Client.call_tool (Scenario.reach (Scenario.server [TextContent "[1, 2]"] []))
     Json.loads Scenario.str_of Scenario.client "t" VNone Client.start).1 =
  (Client.call_tool
     (Scenario.reach
        {| initialize := Ok (); session_list_tools := Ok [];
           session_call_tool := λ _ _,
             Ok {| content := [TextContent "[1, 2]"; ImageContent "AAAA" "image/png"];
                   isError := true |};
           session_get_prompt := λ _ _, Ok {| messages := [] |} |})
     Json.loads Scenario.str_of Scenario.client "t" VNone Client.start).1.
Proof.
  eapply (call_tool_first_block_only
            (Scenario.reach (Scenario.server [TextContent "[1, 2]"] [])) _
            Json.loads Scenario.str_of Scenario.client "t" VNone Client.start
            _ _ _ _ (TextContent "[1, 2]") [] [ImageContent "AAAA" "image/png"]).
  - split; reflexivity.
  - split; reflexivity.
  - reflexivity.
  - reflexivity.
  - reflexivity.
  - reflexivity.
Defined.



(** X5. Each of the four named wrappers, once connected, sends one call,
    of a tool that the server declares, with arguments that fit the
    parameters of that tool; [create_image] always sends a size. *)
Theorem wrappers_call_declared_tools :
  ∀ sse_client json_loads str_of self p session question product_id
    customer_id prompt size,
    answers sse_client self session →
    let sent (m : M value) :=
      ∃ call, wire (m p).2 =
                wire p ++ [Connect (server_url self); Initialize; call] ∧
              declared_call call = true in
    sent (Client.get_product_recommendations sse_client json_loads str_of self
            question) ∧
    sent (Client.check_inventory sse_client json_loads str_of self product_id) ∧
    sent (Client.calculate_discount sse_client json_loads str_of self
            customer_id) ∧
    sent (Client.create_image sse_client json_loads str_of self prompt size) ∧
    ∃ size', wire (Client.create_image sse_client json_loads str_of self prompt
                     size p).2 =
               wire p ++ [Connect (server_url self); Initialize;
                          CallTool "generate_product_image"
                            (VDict [("prompt", VStr prompt); ("size", VStr size')])].
Proof.
  intros sse_client json_loads str_of self p session question product_id
    customer_id prompt size [Hc Hi] sent.
  assert (Hsent : ∀ tool_name arguments,
            wire (Client.call_tool sse_client json_loads str_of self tool_name
                    arguments p).2 =
              wire p ++ [Connect (server_url self); Initialize;
                         CallTool tool_name arguments]).
  { intros. run_client. rewrite Hc; simpl. rewrite Hi; simpl.
    split_cases; by rewrite <- !app_assoc. }
  repeat split.
  1-4: eexists; split; [apply Hsent|reflexivity].
  eexists. apply Hsent.
Qed.

Lemma wrappers_call_declared_tools_witness :
  ∃ call,
    wire (Client.check_inventory (Scenario.reach (Scenario.server [] []))
            Json.loads Scenario.str_of Scenario.client "P1" Client.start).2 =
      wire Client.start ++ [Connect "http://localhost:8000/sse"; Initialize; call] ∧
    declared_call call = true.
Proof.
  destruct (wrappers_call_declared_tools (Scenario.reach (Scenario.server [] []))
              Json.loads Scenario.str_of Scenario.client Client.start
              (Scenario.server [] []) "q" "P1" "C7" "a sofa" None
              (conj eq_refl eq_refl)) as (_ & Hinventory & _).
  exact Hinventory.
Defined.


(** X7. When the listing of the first call fails, the call raises, and
    the instance it has made stays in the global with an empty cache:
    every later call returns that instance as it is, without a second
    listing, so the cache is never filled. *)
Theorem failed_listing_is_not_retried :
  ∀ sse_client url p e,
    _mcp_client p = None →
    listing_fails sse_client
      (Client.__init__ (Some (default Client.get_mcp_client_default url))) e →
    is_Exception e = true →
    let first := Client.get_mcp_client sse_client url p in
    first.1 = Raise e ∧
    ∃ l obj,
      _mcp_client first.2 = Some l ∧
      objects first.2 !! l = Some obj ∧
      available_tools obj = [] ∧
      ∀ sse_client' url',
        Client.get_mcp_client sse_client' url' first.2 = (Ok (Some l), first.2).
Proof.
  intros sse_client url p e Hg Hf He first.
  destruct (get_mcp_client_failed_first sse_client url p e Hg Hf He)
    as (H1 & H2 & H3 & _).
  split; [exact H1|]. eexists _, _. split; [exact H2|]. split; [exact H3|].
  split; [reflexivity|]. intros. by apply get_mcp_client_again.
Qed.

Lemma failed_listing_is_not_retried_witness :
  let first :=
    Client.get_mcp_client (Scenario.reach (Scenario.broken (OSError "refused")))
      None Client.start in
  first.1 = Raise (OSError "refused") ∧
  (Client.get_mcp_client (Scenario.reach (Scenario.server [] [])) None first.2).1
    = Ok (Some 0) ∧
  (available_tools <$> objects first.2 !! 0) = Some [].
Proof.
  destruct (failed_listing_is_not_retried
              (Scenario.reach (Scenario.broken (OSError "refused"))) None
              Client.start (OSError "refused") eq_refl) as [Hraised Hkept].
  - right. eexists. split; [reflexivity|]. right. split; reflexivity.
  - reflexivity.
  - split; [exact Hraised|]. split; by vm_compute.
Defined.

(** X8. The url of the shared instance, for every argument of the first
    call: a non-empty url is kept, the empty url gives the default of the
    constructor, which ends in [/sse], and no url gives the default of
    [get_mcp_client], which ends in [/see]; the first connection goes
    there. *)
Theorem get_mcp_client_url :
  ∀ sse_client url p,
    _mcp_client p = None →
    let first := Client.get_mcp_client sse_client url p in
    let chosen := match url with
                  | None => "http://localhost:8000/see"
                  | Some "" => "http://localhost:8000/sse"
                  | Some given => given
                  end in
    ∃ l obj requests,
      _mcp_client first.2 = Some l ∧
      objects first.2 !! l = Some obj ∧
      server_url obj = chosen ∧
      wire first.2 = wire p ++ Connect chosen :: requests.
Proof.
  intros sse_client url p Hg first chosen.
  destruct (get_mcp_client_registers sse_client url p Hg)
    as (H1 & [tools H2] & [requests H3]).
  assert (Hurl : server_url (Client.__init__
                   (Some (default Client.get_mcp_client_default url))) = chosen).
  { unfold chosen. destruct url as [[|c given]|]; reflexivity. }
  rewrite Hurl in H2, H3. eexists _, _, _. repeat split; try done.
Qed.

Lemma get_mcp_client_url_witness :
  ∃ l obj requests,
    let first := Client.get_mcp_client (Scenario.reach (Scenario.server [] []))
                   (Some "") Client.start in
    _mcp_client first.2 = Some l ∧
    objects first.2 !! l = Some obj ∧
    server_url obj = "http://localhost:8000/sse" ∧
    wire first.2 = wire Client.start ++ Connect "http://localhost:8000/sse" :: requests.
Proof.
  exact (get_mcp_client_url (Scenario.reach (Scenario.server [] [])) (Some "")
           Client.start eq_refl).
Defined.

(** * Further properties of the server *)

Lemma handler_raises json_dumps (collaborated : result value) e :
  collaborated ≫= Server.str_or_dumps json_dumps = Raise e ↔
  collaborated = Raise e ∨
  ∃ v, collaborated = Ok v ∧ isinstance_str v = false ∧ json_dumps v = Raise e.
Proof.
  destruct collaborated as [v|e']; simpl.
  - split.
    + intros H. right. exists v. split; [done|].
      destruct v; simpl in *; by try discriminate.
    + intros [[=] | (v' & [= <-] & Hv & Hd)]. by destruct v.
  - split.
    + intros [= ->]. by left.
    + by intros [[= ->] | (v' & [=] & _)].
Qed.

(** X9. A tool handler raises exactly when its collaborator raises, with
    the same exception, or when the collaborator returns a value that is
    not a string and [json.dumps] raises on it: the handlers catch
    nothing and add no failure of their own. *)
Theorem handlers_raise_exactly :
  ∀ product_recommendations inventory_check calculate_discount create_image
    json_dumps e,
    let through (handled : result string) (collaborated : result value) :=
      handled = Raise e ↔
      collaborated = Raise e ∨
      ∃ v, collaborated = Ok v ∧ isinstance_str v = false ∧ json_dumps v = Raise e in
    (∀ question,
       through (Server.get_product_recommendations product_recommendations
                  json_dumps question)
               (product_recommendations question)) ∧
    (∀ product_id,
       through (Server.check_product_inventory inventory_check json_dumps
                  product_id)
               (inventory_check (VDict [("id", VStr product_id)]))) ∧
    (∀ customer_id,
       through (Server.get_customer_discount calculate_discount json_dumps
                  customer_id)
               (calculate_discount customer_id)) ∧
    (∀ prompt size,
       through (Server.generate_product_image create_image json_dumps prompt size)
               (create_image prompt (default "1024x1024" size))).
Proof.
  intros. unfold through.
  split; [|split; [|split]]; intros; apply handler_raises.
Qed.

(** X10. [agentPrompt] raises exactly when the lower-cased name is one of
    its keys and the template of that key cannot be read, with the
    exception of the reading: an unknown name never raises, a known name
    has no fallback. *)
Theorem agentPrompt_raises_exactly :
  ∀ lower PROMPTS_DIR read_text agent_name e,
    Server.agentPrompt lower PROMPTS_DIR read_text agent_name = Raise e ↔
    ∃ filename,
      Server.prompt_files !! lower agent_name = Some filename ∧
      read_text (PROMPTS_DIR +:+ "/" +:+ filename) = Raise e.
Proof.
  intros. unfold Server.agentPrompt, Server.read_prompt_file.
  destruct (Server.prompt_files !! lower agent_name) as [filename|].
  - split; [by exists filename|]. by intros (filename' & [= <-] & H).
  - split; [done|]. by intros (filename' & [=] & _).
Qed.

Lemma handlers_raise_exactly_witness :
  Server.get_customer_discount (λ _, Raise (Failure "KeyError" "C7"))
    Scenario.dumps "C7" = Raise (Failure "KeyError" "C7").
Proof.
  destruct (handlers_raise_exactly Scenario.returns_str Scenario.returns_str
              (λ _, Raise (Failure "KeyError" "C7")) (λ _, Scenario.returns_str)
              Scenario.dumps (Failure "KeyError" "C7")) as (_ & _ & Hdiscount & _).
  apply Hdiscount. by left.
Defined.

Lemma agentPrompt_raises_exactly_witness :
  Server.agentPrompt Server.ascii_lower "elsewhere" Scenario.read_text "INVENTORY"
    = Raise (OSError "elsewhere/InventoryAgentPrompt.txt").
Proof.
  apply agentPrompt_raises_exactly.
  exists "InventoryAgentPrompt.txt". split; reflexivity.
Defined.

(** * The two modules together *)

Lemma call_tool_delivered sse_client json_loads str_of self tool_name arguments p
    session returned text :
  answers sse_client self session →
  delivers session tool_name arguments returned →
  returned = Ok text →
  (Client.call_tool sse_client json_loads str_of self tool_name arguments p).1 =
    decoded json_loads text.
Proof.
  intros Hs Hd Hr.
  by rewrite (call_tool_response _ _ _ _ _ _ _ _ _ Hs (Hd text Hr)).
Qed.

(** X11. From the collaborator behind a tool to the caller of the client's
    wrapper, when the transport delivers the text of the handler: a
    value that is not a string comes back as [json.loads] of its
    [json.dumps]; a string comes back as [json.loads] of the string
    itself when that parses, so the string [42] comes back as the
    integer 42, and as the string only when it is not JSON. *)
Theorem tool_result_end_to_end :
  ∀ sse_client json_loads json_dumps str_of self p session
    product_recommendations inventory_check calculate_discount create_image
    (v : value) text,
    answers sse_client self session →
    Server.str_or_dumps json_dumps v = Ok text →
    let arrives (r : result value) :=
      r = decoded json_loads text ∧
      (∀ s, v = VStr s → r = decoded json_loads s) ∧
      (v = VStr "42" → json_loads = Json.loads → r = Ok (VInt 42)) in
    (∀ question,
       product_recommendations question = Ok v →
       delivers session "get_product_recommendations"
         (VDict [("question", VStr question)])
         (Server.get_product_recommendations product_recommendations json_dumps
            question) →
       arrives (Client.get_product_recommendations sse_client json_loads str_of
                  self question p).1) ∧
    (∀ product_id,
       inventory_check (VDict [("id", VStr product_id)]) = Ok v →
       delivers session "check_product_inventory"
         (VDict [("product_id", VStr product_id)])
         (Server.check_product_inventory inventory_check json_dumps product_id) →
       arrives (Client.check_inventory sse_client json_loads str_of self
                  product_id p).1) ∧
    (∀ customer_id,
       calculate_discount customer_id = Ok v →
       delivers session "get_customer_discount"
         (VDict [("customer_id", VStr customer_id)])
         (Server.get_customer_discount calculate_discount json_dumps customer_id) →
       arrives (Client.calculate_discount sse_client json_loads str_of self
                  customer_id p).1) ∧
    (∀ prompt size,
       create_image prompt (default "1024x1024" size) = Ok v →
       delivers session "generate_product_image"
         (VDict [("prompt", VStr prompt);
                 ("size", VStr (default "1024x1024" size))])
         (Server.generate_product_image create_image json_dumps prompt
            (Some (default "1024x1024" size))) →
       arrives (Client.create_image sse_client json_loads str_of self prompt
                  size p).1).
Proof.
  intros sse_client json_loads json_dumps str_of self p session
    product_recommendations inventory_check calculate_discount create_image
    v text Hs Htext arrives.
  assert (Harrives : ∀ r, r = decoded json_loads text → arrives r).
  { intros r ->. split; [done|]. split.
    - intros s ->. simpl in Htext. by injection Htext as ->.
    - intros -> ->. simpl in Htext. by injection Htext as <-. }
  split; [|split; [|split]]; intros; apply Harrives;
    unfold Client.get_product_recommendations, Client.check_inventory,
      Client.calculate_discount, Client.create_image;
    (eapply call_tool_delivered; [exact Hs|eassumption|]);
    unfold Server.get_product_recommendations, Server.check_product_inventory,
      Server.get_customer_discount, Server.generate_product_image; simpl;
    match goal with H : _ = Ok v |- _ => by rewrite H end.
Qed.

Lemma tool_result_end_to_end_witness :
  (Client.calculate_discount (Scenario.reach (Scenario.server [TextContent "42"] []))
     Json.loads Scenario.str_of Scenario.client "C7" Client.start).1
    = Ok (VInt 42).
Proof.
  destruct (tool_result_end_to_end
              (Scenario.reach (Scenario.server [TextContent "42"] []))
              Json.loads Scenario.dumps Scenario.str_of Scenario.client
              Client.start (Scenario.server [TextContent "42"] [])
              (λ _, Ok (VStr "42")) (λ _, Ok (VStr "42")) (λ _, Ok (VStr "42"))
              (λ _ _, Ok (VStr "42")) (VStr "42") "42"
              (conj eq_refl eq_refl) eq_refl) as (_ & _ & Hdiscount & _).
  destruct (Hdiscount "C7" eq_refl) as (_ & _ & Hint).
  - intros text [= <-]. reflexivity.
  - by apply Hint.
Defined.

(** * Properties of the agent initializers *)

Ltac run_agents :=
  unfold Agents.customerLoyaltyAgent_initializer.initialize_agent,
    Agents.agent_initializer.initialize_agent, Agents.with_client,
    Agents.environ_get, Agents.call, Agents.print;
  unfold mbind, mret, Agents.S_bind, Agents.S_ret; simpl.

(** X12. With the variable of the environment set to a non-empty id,
    [initialize_agent] of the loyalty agent looks that agent up and
    updates the agent it has got, under the id the service has returned;
    it creates no agent, also when the lookup fails: then the exception
    of the lookup comes out, after the context is left, and nothing is
    printed. *)
Theorem loyalty_agent_updated_not_created :
  ∀ environ project_client model env_var_name name instructions toolset sh agent_id,
    environ !! env_var_name = Some agent_id →
    agent_id ≠ "" →
    let run := Agents.customerLoyaltyAgent_initializer.initialize_agent environ
                 project_client model env_var_name name instructions toolset sh in
    (∃ made, Agents.calls run.2 = Agents.calls sh ++ made ∧
             Forall (λ c, Agents.is_create c = false) made) ∧
    (∀ e, Agents.get_agent project_client agent_id = Raise e →
       run.1 = Raise e ∧
       Agents.calls run.2 =
         Agents.calls sh ++ [Agents.Enter; Agents.GetAgent agent_id; Agents.Exit] ∧
       Agents.stdout run.2 = Agents.stdout sh) ∧
    (∀ agent, Agents.get_agent project_client agent_id = Ok agent →
       Agents.calls run.2 =
         Agents.calls sh ++
           [Agents.Enter; Agents.GetAgent agent_id;
            Agents.UpdateAgent (Agents.id agent) model name instructions toolset;
            Agents.Exit]).
Proof.
  intros environ project_client model env_var_name name instructions toolset sh
    agent_id Henv Hid run.
  unfold run. run_agents. rewrite Henv.
  destruct agent_id as [|c rest]; [done|]. simpl.
  destruct (Agents.get_agent project_client (String c rest)) as [agent|e]; simpl.
  - split; [|split; [done|]].
    + destruct (Agents.update_agent _ _ _ _ _ _); simpl;
        rewrite <- !app_assoc; eexists; (split; [reflexivity|]);
        by repeat constructor.
    + intros agent' [= <-].
      destruct (Agents.update_agent _ _ _ _ _ _); simpl; by rewrite <- !app_assoc.
  - split; [|split; [|done]].
    + rewrite <- !app_assoc. eexists. split; [reflexivity|]. by repeat constructor.
    + intros e' [= <-]. by rewrite <- !app_assoc.
Qed.

Lemma loyalty_agent_updated_not_created_witness :
  let run := Agents.customerLoyaltyAgent_initializer.initialize_agent
               {["customer_loyalty" := "asst_1"]} Scenario.service
               "gpt-4o" "customer_loyalty" "Loyalty" "Be kind."
               (VObject "ToolSet") Agents.fresh_shell in
  Agents.calls run.2 =
    [Agents.Enter; Agents.GetAgent "asst_1";
     Agents.UpdateAgent "asst_1" "gpt-4o" "Loyalty" "Be kind." (VObject "ToolSet");
     Agents.Exit].
Proof.
  destruct (loyalty_agent_updated_not_created
              {["customer_loyalty" := "asst_1"]} Scenario.service
              "gpt-4o" "customer_loyalty" "Loyalty" "Be kind."
              (VObject "ToolSet") Agents.fresh_shell "asst_1")
    as (_ & _ & Hupdated).
  - reflexivity.
  - discriminate.
  - exact (Hupdated {| Agents.id := "asst_1" |} eq_refl).
Defined.

(** X13. With the variable set to the empty string, [initialize_agent] of
    the loyalty agent makes one call of the service, [create_agent], with
    the model, the name, the instructions and the tools it was given,
    between entering and leaving the context; when the call succeeds it
    prints the id of the new agent after the name of the variable. *)
Theorem loyalty_agent_created_when_empty :
  ∀ environ project_client model env_var_name name instructions toolset sh,
    environ !! env_var_name = Some "" →
    let run := Agents.customerLoyaltyAgent_initializer.initialize_agent environ
                 project_client model env_var_name name instructions toolset sh in
    let created := Agents.create_agent project_client model name instructions
                     toolset in
    Agents.calls run.2 =
      Agents.calls sh ++
        [Agents.Enter; Agents.CreateAgent model name instructions toolset;
         Agents.Exit] ∧
    (∀ agent, created = Ok agent →
       run.1 = Ok () ∧
       Agents.stdout run.2 =
         Agents.stdout sh ++
           ["Created " +:+ env_var_name +:+ " agent, ID: " +:+ Agents.id agent]) ∧
    (∀ e, created = Raise e →
       run.1 = Raise e ∧ Agents.stdout run.2 = Agents.stdout sh).
Proof.
  intros environ project_client model env_var_name name instructions toolset sh
    Henv run created.
  unfold run. run_agents. rewrite Henv. simpl. fold created.
  destruct created as [agent|e]; simpl; rewrite <- !app_assoc.
  - split; [done|]. split; [|done]. by intros agent' [= <-].
  - split; [done|]. split; [done|]. by intros e' [= <-].
Qed.

Lemma loyalty_agent_created_when_empty_witness :
  let run := Agents.customerLoyaltyAgent_initializer.initialize_agent
               {["customer_loyalty" := ""]} Scenario.service
               "gpt-4o" "customer_loyalty" "Loyalty" "Be kind."
               (VObject "ToolSet") Agents.fresh_shell in
  run.1 = Ok () ∧
  Agents.stdout run.2 = ["Created customer_loyalty agent, ID: asst_2"].
Proof.
  destruct (loyalty_agent_created_when_empty
              {["customer_loyalty" := ""]} Scenario.service
              "gpt-4o" "customer_loyalty" "Loyalty" "Be kind."
              (VObject "ToolSet") Agents.fresh_shell)
    as (_ & Hcreated & _).
  - reflexivity.
  - exact (Hcreated {| Agents.id := "asst_2" |} eq_refl).
Defined.

(** X14. Without the variable in the environment, [initialize_agent] of
    the loyalty agent raises [KeyError] before it touches the client: no
    call is made, the context is not entered, nothing is printed. *)
Theorem loyalty_agent_needs_variable :
  ∀ environ project_client model env_var_name name instructions toolset sh,
    environ !! env_var_name = None →
    Agents.customerLoyaltyAgent_initializer.initialize_agent environ
      project_client model env_var_name name instructions toolset sh =
    (Raise (Failure "KeyError" env_var_name), sh).
Proof.
  intros environ project_client model env_var_name name instructions toolset sh
    Henv.
  run_agents. by rewrite Henv.
Qed.

Lemma loyalty_agent_needs_variable_witness :
  (Agents.customerLoyaltyAgent_initializer.initialize_agent
     {["cora" := "asst_1"]} Scenario.service
     "gpt-4o" "customer_loyalty" "Loyalty" "Be kind."
     (VObject "ToolSet") Agents.fresh_shell).1
    = Raise (Failure "KeyError" "customer_loyalty").
Proof.
  rewrite (loyalty_agent_needs_variable {["cora" := "asst_1"]} Scenario.service
             "gpt-4o" "customer_loyalty" "Loyalty" "Be kind."
             (VObject "ToolSet") Agents.fresh_shell).
  - reflexivity.
  - reflexivity.
Defined.

(** X15. Whatever the environment and the service, a run of
    [initialize_agent] of the loyalty agent that enters the context
    leaves it last, and changes the agents of the service by at most one
    call. *)
Theorem loyalty_agent_one_write :
  ∀ environ project_client model env_var_name name instructions toolset sh,
    let run := Agents.customerLoyaltyAgent_initializer.initialize_agent environ
                 project_client model env_var_name name instructions toolset sh in
    ∃ made,
      Agents.calls run.2 = Agents.calls sh ++ made ∧
      (made = [] ∨ ∃ inside, made = Agents.Enter :: inside ++ [Agents.Exit]) ∧
      length (filter (λ c, Agents.is_write c = true) made) ≤ 1.
Proof.
  intros. unfold run. run_agents.
  destruct (environ !! env_var_name) as [[|c rest]|]; simpl.
  - destruct (Agents.create_agent _ _ _ _ _); simpl; rewrite <- !app_assoc;
      eexists; (split; [reflexivity|]); (split; [right; by eexists [_]|]);
      simpl; lia.
  - destruct (Agents.get_agent _ _); simpl;
      [destruct (Agents.update_agent _ _ _ _ _ _); simpl|];
      rewrite <- !app_assoc;
      eexists; (split; [reflexivity|]);
      (split; [right; first [by eexists [_; _] | by eexists [_]]|]);
      simpl; lia.
  - exists []. rewrite app_nil_r. split; [done|]. split; [by left|]. simpl. lia.
Qed.

(** X16. [initialize_agent] of [agent_initializer.py] never looks an agent
    up and never reads the name of the variable: it enters the context,
    calls [create_agent] and leaves; it prints the id of the agent under
    its name when the call succeeds, and lets the exception out
    otherwise. *)
Theorem plain_agent_always_created :
  ∀ project_client model env_var_name name instructions toolset sh,
    let run := Agents.agent_initializer.initialize_agent project_client model
                 env_var_name name instructions toolset sh in
    let created := Agents.create_agent project_client model name instructions
                     toolset in
    Agents.calls run.2 =
      Agents.calls sh ++
        [Agents.Enter; Agents.CreateAgent model name instructions toolset;
         Agents.Exit] ∧
    run.1 = created ≫= (λ _, Ok ()) ∧
    Agents.stdout run.2 =
      Agents.stdout sh ++
        match created with
        | Ok agent => ["Created " +:+ name +:+ " agent, ID: " +:+ Agents.id agent]
        | Raise _ => []
        end.
Proof.
  intros. unfold run. run_agents. fold created.
  destruct created as [agent|e]; simpl; rewrite <- !app_assoc;
    by rewrite ?app_nil_r.
Qed.

(** * The round trip through the encoder and the decoder *)


(** ** Integers *)






(** ** The scanner on what the encoder writes *)

Import Json.


Lemma run_app st a b : run st (a ++ b) = st' ← run st a; run st' b.
Proof.
  revert st. induction a as [|c a IH]; intros st; simpl; [done|].
  destruct (step st c); simpl; [apply IH|done].
Qed.




(** ** Strings *)

Section Strings.
Local Open Scope N_scope.











End Strings.


(** ** Values *)

















